(** * GeoJSON vs. CSV point analyzer: coordinate cleaning and triage

    A shallow embedding of the processing part of [Home.py] (the body run
    when both files are uploaded and "Run Analysis" is pressed), with the
    properties its specification states about it.

    Python values are modelled as follows.
    - [str]: a [string], one [ascii] per character, read as the code points
      below 256.
    - [float] / numpy [float64]: IEEE-754 binary64 as [spec_float] with
      precision 53 and maximal exponent 1024.
    - exceptions: the error monad [sum exn] of ExtLib, [try]/[except] being
      [catch].
    - a pandas [Series]: a list; a [DataFrame]: a list of labelled rows. *)

From Stdlib Require Import ZArith QArith List Bool String Ascii Lia Permutation Sorted.
From Stdlib Require Import Qabs Numbers.DecimalString.
From Stdlib Require Import Floats.SpecFloat.
From ExtLib Require Import Structures.Monad Structures.MonadExc Data.Monads.EitherMonad.
Import ListNotations.
Import MonadNotation.
Local Close Scope Q_scope.
Local Open Scope monad_scope.
Local Open Scope string_scope.

(** ** Exceptions *)

(** A Python exception, with its [str(e)]. *)
Inductive exn : Type :=
| PyError (msg : string).

Definition result (A : Type) : Type := sum exn A.

#[global] Instance Monad_result : Monad result := Monad_either exn.
#[global] Instance Exception_result : MonadExc exn result := Exception_either exn.

Definition exn_str (e : exn) : string :=
  match e with
  | PyError msg => msg
  end.

(** ** binary64 *)

Module Float64.

Definition prec : Z := 53.
Definition emax : Z := 1024.

Definition float : Type := spec_float.

Definition nan : float := S754_nan.

(** The float of an integer literal of the source ([0], [-180], [90]). *)
Definition of_Z (z : Z) : float := binary_normalize prec emax z 0 false.

(** The float nearest to [num / den] (ties to even), for [den > 0]:
    the correctly rounded value that [float(str)] returns. *)
Definition of_ratio (neg : bool) (num den : Z) : float :=
  match num with
  | Z0 => S754_zero neg
  | _ =>
    let '(q, e, l) := SFdiv_core_binary prec emax num 0 den 0 in
    binary_round_aux prec emax neg q e l
  end.

Definition eqb (x y : float) : bool := SFeqb x y.
Definition leb (x y : float) : bool := SFleb x y.
Definition geb (x y : float) : bool := SFleb y x.

Definition isnan (x : float) : bool :=
  match x with
  | S754_nan => true
  | _ => false
  end.

Definition is_finite (x : float) : bool :=
  match x with
  | S754_zero _ | S754_finite _ _ _ => true
  | _ => false
  end.

(** The number a finite float stands for, [(-1)^s * m * 2^e]. *)
Definition to_Q (x : float) : Q :=
  match x with
  | S754_finite s m e =>
    let v :=
      match e with
      | Zneg k => Qmake (Zpos m) (2 ^ k)
      | _ => inject_Z (Zpos m * 2 ^ e)
      end in
    if s then Qopp v else v
  | _ => 0%Q
  end.

(** The same number in units of [2^-1074], the least positive binary64. *)
Definition scaled (x : float) : Z :=
  match x with
  | S754_finite s m e =>
    let v := (Zpos m * 2 ^ (e + 1074))%Z in
    if s then (- v)%Z else v
  | _ => 0%Z
  end.

End Float64.

Definition float : Type := Float64.float.

(** ** [str.strip], [str.replace] *)

(** [str.isspace] on one character, for the code points below 256. *)
Definition isspace (c : ascii) : bool :=
  let n := nat_of_ascii c in
  ((9 <=? n) && (n <=? 13) || (28 <=? n) && (n <=? 32)
   || (n =? 133) || (n =? 160))%nat.

Fixpoint lstrip (s : string) : string :=
  match s with
  | EmptyString => EmptyString
  | String c s' => if isspace c then lstrip s' else s
  end.

Fixpoint rstrip (s : string) : string :=
  match s with
  | EmptyString => EmptyString
  | String c s' =>
    match rstrip s' with
    | EmptyString => if isspace c then EmptyString else String c EmptyString
    | t => String c t
    end
  end.

(** [s.strip()] *)
Definition strip (s : string) : string := rstrip (lstrip s).

(** Every character of the string is white space. *)
Fixpoint all_space (s : string) : bool :=
  match s with
  | EmptyString => true
  | String c s' => isspace c && all_space s'
  end.

(** The last character of [String d s]. *)
Fixpoint last_char (s : string) (d : ascii) : ascii :=
  match s with
  | EmptyString => d
  | String c s' => last_char s' c
  end.

(** The string neither starts nor ends with white space. *)
Definition trimmed (s : string) : bool :=
  match s with
  | EmptyString => true
  | String c s' => negb (isspace c) && negb (isspace (last_char s' c))
  end.

(** [s.replace(old, new)] for one-character [old] and [new]. *)
Fixpoint replace (old new : ascii) (s : string) : string :=
  match s with
  | EmptyString => EmptyString
  | String c s' =>
    String (if Ascii.eqb c old then new else c) (replace old new s')
  end.

(** ** The builtin [float(str)] *)

Module PyFloat.

Definition is_digit (c : ascii) : bool :=
  let n := nat_of_ascii c in ((48 <=? n) && (n <=? 57))%nat.

Definition digit_val (c : ascii) : Z := (Z.of_nat (nat_of_ascii c) - 48)%Z.

(** Underscores are accepted between two digits only, and dropped. *)
Fixpoint drop_underscores (prev : option ascii) (s : list ascii)
  : option (list ascii) :=
  match s with
  | [] =>
    match prev with
    | Some "_"%char => None
    | _ => Some []
    end
  | c :: s' =>
    if Ascii.eqb c "_" then
      match prev with
      | Some p => if is_digit p then drop_underscores (Some c) s' else None
      | None => None
      end
    else
      let ok :=
        match prev with
        | Some "_"%char => is_digit c
        | _ => true
        end in
      if ok then option_map (cons c) (drop_underscores (Some c) s') else None
  end.

Fixpoint span_digits (s : list ascii) : list ascii * list ascii :=
  match s with
  | c :: s' =>
    if is_digit c then let '(d, r) := span_digits s' in (c :: d, r)
    else ([], s)
  | [] => ([], [])
  end.

Definition digits_val (ds : list ascii) : Z :=
  fold_left (fun acc c => (10 * acc + digit_val c)%Z) ds 0%Z.

Definition take_sign (s : list ascii) : bool * list ascii :=
  match s with
  | "-"%char :: r => (true, r)
  | "+"%char :: r => (false, r)
  | _ => (false, s)
  end.

Definition lower (c : ascii) : ascii :=
  let n := nat_of_ascii c in
  if ((65 <=? n) && (n <=? 90))%nat then ascii_of_nat (n + 32) else c.

(** [inf], [infinity] and [nan], in any case. *)
Definition inf_or_nan (neg : bool) (s : list ascii) : option float :=
  let w := string_of_list_ascii (map lower s) in
  if String.eqb w "inf" || String.eqb w "infinity"
  then Some (S754_infinity neg)
  else if String.eqb w "nan" then Some S754_nan
  else None.

(** The exponent part: empty, or [e] or [E], a sign, one digit or more. *)
Definition exponent (s : list ascii) : option Z :=
  match s with
  | [] => Some 0%Z
  | c :: r =>
    if Ascii.eqb (lower c) "e" then
      let '(neg, r1) := take_sign r in
      let '(ds, r2) := span_digits r1 in
      match ds, r2 with
      | _ :: _, [] => Some (if neg then (- digits_val ds) else digits_val ds)%Z
      | _, _ => None
      end
    else None
  end.

(** [digits [. digits] [exponent]] or [. digits [exponent]], rounded to
    the nearest binary64. *)
Definition number (neg : bool) (s : list ascii) : option float :=
  let '(ip, r1) := span_digits s in
  let '(fp, r2) :=
    match r1 with
    | "."%char :: r => span_digits r
    | _ => ([], r1)
    end in
  match (ip ++ fp)%list with
  | [] => None
  | ds =>
    match exponent r2 with
    | None => None
    | Some ex =>
      let m := digits_val ds in
      let e10 := (ex - Z.of_nat (List.length fp))%Z in
      Some (if (0 <=? e10)%Z
            then Float64.of_ratio neg (m * 10 ^ e10)%Z 1%Z
            else Float64.of_ratio neg m (10 ^ (- e10))%Z)
    end
  end.

Definition parse (s : string) : option float :=
  match drop_underscores None (list_ascii_of_string (strip s)) with
  | None => None
  | Some cs =>
    let '(neg, r) := take_sign cs in
    match number neg r with
    | Some f => Some f
    | None => inf_or_nan neg r
    end
  end.

End PyFloat.

(** [float(s)] for a [str] argument: the number, or [ValueError]. *)
Definition py_float (s : string) : result float :=
  match PyFloat.parse s with
  | Some f => ret f
  | None => raise (PyError ("could not convert string to float: " ++ s))
  end.

(** ** Frames and series *)

(** A cell of a frame read with [dtype=str]: a [str], or [None] for the
    missing value (pandas' NaN). *)
Definition Cell : Type := option string.

Definition Row : Type := list Cell.

(** A frame: its rows in order, each with its index label. *)
Definition DataFrame : Type := list (nat * Row).

(** The rows labelled 0 to n-1, [RangeIndex(0, n)]: the labels that
    [pd.read_csv] gives when the rows have as many fields as the header. *)
Definition range_index (rows : list Row) : DataFrame :=
  combine (seq 0 (List.length rows)) rows.

(** [df[col]] *)
Definition column (col : nat) (df : DataFrame) : list Cell :=
  map (fun r => nth col (snd r) None) df.

(** [Series.apply(f)]: [f] on every element in order; an exception raised
    by [f] propagates. *)
Fixpoint apply {A B : Type} (f : A -> result B) (s : list A)
  : result (list B) :=
  match s with
  | [] => ret []
  | a :: s' => b <- f a ;; bs <- apply f s' ;; ret (b :: bs)
  end.

(** Element-wise operators on series. *)
Definition series_eq (s : list float) (c : float) : list bool :=
  map (fun v => Float64.eqb v c) s.

(** [s.between(left, right)], inclusive on both sides:
    [(s >= left) & (s <= right)]. *)
Definition between (left right : float) (s : list float) : list bool :=
  map (fun v => Float64.geb v left && Float64.leb v right) s.

Definition notna (s : list float) : list bool :=
  map (fun v => negb (Float64.isnan v)) s.

Fixpoint zip_with {A B C : Type} (f : A -> B -> C) (l : list A) (m : list B)
  : list C :=
  match l, m with
  | a :: l', b :: m' => f a b :: zip_with f l' m'
  | _, _ => []
  end.

Definition mask_and : list bool -> list bool -> list bool := zip_with andb.
Definition mask_or : list bool -> list bool -> list bool := zip_with orb.
Definition mask_not : list bool -> list bool := map negb.

(** [df[mask]]: the rows where the mask holds, labels kept. *)
Fixpoint select {A : Type} (mask : list bool) (df : list A) : list A :=
  match mask, df with
  | b :: mask', r :: df' =>
    if b then r :: select mask' df' else select mask' df'
  | _, _ => []
  end.

(** ** Step 1: cleaning *)

(** [clean_coord], lines 79-85. *)
Definition clean_coord (val : Cell) : result float :=
  match val with
  | None => ret Float64.nan
  | Some s =>
    let val := replace "," "." (strip s) in
    catch (py_float val) (fun _ => ret Float64.nan)
  end.

(** A row of [df_clean]: the row of [df] with the two coordinate columns
    replaced by floats. *)
Record CleanRow : Type := mkCleanRow {
  origin : nat * Row;
  lon : float;
  lat : float
}.

Fixpoint assign (df : DataFrame) (xs ys : list float) : list CleanRow :=
  match df, xs, ys with
  | r :: df', x :: xs', y :: ys' => mkCleanRow r x y :: assign df' xs' ys'
  | _, _, _ => []
  end.

(** ** Step 2: categories *)

(** Line 92. *)
Definition zero_mask (xs ys : list float) : list bool :=
  mask_and (series_eq xs (Float64.of_Z 0)) (series_eq ys (Float64.of_Z 0)).

(** Lines 96-99. *)
Definition valid_range_mask (xs ys : list float) : list bool :=
  mask_and (between (Float64.of_Z (-180)) (Float64.of_Z 180) xs)
           (between (Float64.of_Z (-90)) (Float64.of_Z 90) ys).

(** Line 101. *)
Definition valid_mask (xs ys : list float) : list bool :=
  mask_and
    (mask_and
       (mask_and (valid_range_mask xs ys) (mask_not (zero_mask xs ys)))
       (notna xs))
    (notna ys).

(** The mask of line 106. *)
Definition invalid_mask (xs ys : list float) : list bool :=
  mask_not (mask_or (valid_mask xs ys) (zero_mask xs ys)).

(** ** Step 3: containment *)

Definition Point : Type := (float * float)%type.

Inductive Location : Type := Interior | Boundary | Exterior.

Definition Location_eqb (a b : Location) : bool :=
  match a, b with
  | Interior, Interior | Boundary, Boundary | Exterior, Exterior => true
  | _, _ => false
  end.

Inductive Status : Type := Inside | Outside.

(** The libraries the script calls.  An uploaded file is read by geopandas
    or by pandas, which gives the table its row labels; a boundary frame has
    or lacks a reference system, can be reprojected and merged into one
    geometry; [locate] places a point in the interior, on the boundary or in
    the exterior of a geometry. *)
Class Libraries : Type := {
  UploadedFile : Type;
  GeoDataFrame : Type;
  Geometry : Type;
  gpd_read_file : UploadedFile -> result GeoDataFrame;
  has_crs : GeoDataFrame -> bool;
  to_crs : Z -> GeoDataFrame -> result GeoDataFrame;
  set_crs : Z -> GeoDataFrame -> result GeoDataFrame;
  pd_read_csv : UploadedFile -> string -> result DataFrame;
  unary_union : GeoDataFrame -> result Geometry;
  locate : Geometry -> Point -> Location
}.

(** A row of [gdf_points]. *)
Record PointRow : Type := mkPointRow {
  point_row : CleanRow;
  geometry : Point;
  location_status : Status
}.

(** [st.session_state.results] once set: the bundle of lines 117-124, or the
    [{'error': ...}] dictionary of line 126. *)
Inductive Results : Type :=
| Bundle (gdf_points : list PointRow) (df_invalid df_zero : DataFrame)
         (df_raw_len : nat) (x_col y_col : nat)
| NoData (error : string).

Definition no_valid_data : string :=
  "No valid data found (check if all your data is 0,0 or invalid).".

Definition string_of_nat (n : nat) : string :=
  NilEmpty.string_of_uint (Nat.to_uint n).

Section Script.

Context {L : Libraries}.

(** shapely's [p.within(g)] for a point [p]: the point is in the interior
    of [g], neither on its boundary nor in its exterior. *)
Definition within (p : Point) (g : Geometry) : bool :=
  Location_eqb (locate g p) Interior.

(** [.map({True: 'Inside', False: 'Outside'})] *)
Definition status_of (b : bool) : Status := if b then Inside else Outside.

Definition is_empty {A : Type} (l : list A) : bool :=
  match l with
  | [] => true
  | _ => false
  end.

(** The body of the "Run Analysis" button, lines 75-126.  When the same
    column is chosen for both axes the source cleans it twice; the second
    pass reads back [str] of each float, which gives the same float. *)
Definition run_analysis (gdf_polygon : GeoDataFrame) (df : DataFrame)
           (x_col y_col : nat) : result Results :=
  xs <- apply clean_coord (column x_col df) ;;
  ys <- apply clean_coord (column y_col df) ;;
  let df_clean := assign df xs ys in
  let df_valid := select (valid_mask xs ys) df_clean in
  let df_zero := select (zero_mask xs ys) df in
  let df_invalid := select (invalid_mask xs ys) df in
  if negb (is_empty df_valid) then
    let geometry := map (fun r => (lon r, lat r)) df_valid in
    polygon_union <- unary_union gdf_polygon ;;
    let gdf_points :=
      zip_with (fun r p => mkPointRow r p (status_of (within p polygon_union)))
               df_valid geometry in
    ret (Bundle gdf_points df_invalid df_zero (List.length df) x_col y_col)
  else
    ret (NoData no_valid_data).

(** Lines 44-52. *)
Definition load_geojson (geojson_file : UploadedFile) : result GeoDataFrame :=
  gdf_polygon <- gpd_read_file geojson_file ;;
  if has_crs gdf_polygon then to_crs 4326 gdf_polygon
  else set_crs 4326 gdf_polygon.

(** Lines 55-60. *)
Definition load_csv (csv_file : UploadedFile) (sep : string)
  : result DataFrame :=
  pd_read_csv csv_file sep.

(** The calls of [st.error] while the results are rendered, lines 133
    and 179. *)
Definition render (results : option Results) : list string :=
  match results with
  | None => []
  | Some (NoData error) => [error]
  | Some (Bundle _ df_invalid _ _ _ _) =>
    ["Found " ++ string_of_nat (List.length df_invalid)
      ++ " rows with invalid coordinates."]
  end.

(** How a run of the script ends: it goes through to its last line, or
    [st.stop()] ends it, or an exception that nothing catches does. *)
Inductive Run : Type :=
| Completed (shown : list string) (results : option Results)
| Stopped (shown : list string)
| Crashed (e : exn).

(** One run of the script, lines 41-191: the files, the widget values and
    the session state go in.  [shown] collects the messages passed to
    [st.error].  Drawing the tabs of a bundle (lines 135-191) is taken not
    to raise: this leaves out the tables whose chosen coordinate column is
    named [location_status] or [geometry], for which line 114 or 111
    overwrites the column and line 146 raises once the results are
    stored. *)
Definition script (geojson_file csv_file : option UploadedFile)
           (sep : string) (x_col y_col : nat) (run_clicked : bool)
           (results : option Results) : Run :=
  match geojson_file, csv_file with
  | Some g, Some c =>
    match load_geojson g with
    | inl e => Stopped ["Error reading GeoJSON: " ++ exn_str e]
    | inr gdf_polygon =>
      match load_csv c sep with
      | inl e => Stopped ["Error reading CSV: " ++ exn_str e]
      | inr df =>
        if run_clicked then
          match run_analysis gdf_polygon df x_col y_col with
          | inl e => Crashed e
          | inr r => Completed (render (Some r)) (Some r)
          end
        else Completed (render results) results
      end
    end
  | _, _ => Completed [] results
  end.

(** How lines 41-126 end, before anything is drawn: [st.stop()] ended the
    run, an exception did, or line 128 is reached with the session state
    given. *)
Inductive Processed : Type :=
| Halted (shown : list string)
| Raised (e : exn)
| Reached (results : option Results).

(** Lines 41-126: loading the two files and, when the button is pressed,
    the analysis. *)
Definition processing (geojson_file csv_file : option UploadedFile)
           (sep : string) (x_col y_col : nat) (run_clicked : bool)
           (results : option Results) : Processed :=
  match geojson_file, csv_file with
  | Some g, Some c =>
    match load_geojson g with
    | inl e => Halted ["Error reading GeoJSON: " ++ exn_str e]
    | inr gdf_polygon =>
      match load_csv c sep with
      | inl e => Halted ["Error reading CSV: " ++ exn_str e]
      | inr df =>
        if run_clicked then
          match run_analysis gdf_polygon df x_col y_col with
          | inl e => Raised e
          | inr r => Reached (Some r)
          end
        else Reached results
      end
    end
  | _, _ => Reached results
  end.

End Script.

(** ** A library instance: boundary files of at most one polygon

    Uploaded files are given by their decoded content; the rows of a table
    file have as many fields as its header, so that they are labelled from
    0 on.  A polygon is its
    rings, each a closed list of vertices with exact coordinates; a point is
    located by ray crossing, as GEOS does.  The union of one polygon is that
    polygon; an empty feature collection reads as an empty frame, whose
    union is the empty geometry. *)

Module OnePolygon.

Definition Vertex : Type := (Q * Q)%type.

Record Polygon : Type := mkPolygon {
  shell : list Vertex;
  holes : list (list Vertex)
}.

Inductive Upload : Type :=
| BoundaryFile (feature : option Polygon)
| TableFile (rows : list Row)
| Unreadable (why : string).

(** The sign of the turn [p1 -> p2 -> q]: [Gt] when [q] is to the left. *)
Definition orientation (p1 p2 q : Vertex) : comparison :=
  Qcompare ((fst p2 - fst p1) * (snd q - snd p1)
            - (snd p2 - snd p1) * (fst q - fst p1))%Q 0%Q.

Definition Qltb (a b : Q) : bool := negb (Qle_bool b a).

(** What one segment adds to the count for the ray that runs from [q] to
    the right: [None] when [q] is on the segment, else whether the segment
    crosses the ray. *)
Definition count_segment (q p1 p2 : Vertex) : option bool :=
  if Qltb (fst p1) (fst q) && Qltb (fst p2) (fst q) then Some false
  else if Qeq_bool (fst q) (fst p2) && Qeq_bool (snd q) (snd p2) then None
  else if Qeq_bool (snd p1) (snd q) && Qeq_bool (snd p2) (snd q) then
    let minx := if Qle_bool (fst p1) (fst p2) then fst p1 else fst p2 in
    let maxx := if Qle_bool (fst p1) (fst p2) then fst p2 else fst p1 in
    if Qle_bool minx (fst q) && Qle_bool (fst q) maxx then None
    else Some false
  else if (Qltb (snd q) (snd p1) && Qle_bool (snd p2) (snd q))
          || (Qltb (snd q) (snd p2) && Qle_bool (snd p1) (snd q)) then
    match orientation p1 p2 q with
    | Eq => None
    | Gt => Some (negb (Qltb (snd p2) (snd p1)))
    | Lt => Some (Qltb (snd p2) (snd p1))
    end
  else Some false.

Fixpoint ray_crossings (q : Vertex) (ring : list Vertex) (odd : bool)
  : Location :=
  match ring with
  | p1 :: ((p2 :: _) as rest) =>
    match count_segment q p1 p2 with
    | None => Boundary
    | Some c => ray_crossings q rest (xorb odd c)
    end
  | _ => if odd then Interior else Exterior
  end.

Definition locate_in_ring (q : Vertex) (ring : list Vertex) : Location :=
  ray_crossings q ring false.

Fixpoint locate_in_holes (q : Vertex) (hs : list (list Vertex)) : Location :=
  match hs with
  | [] => Interior
  | h :: hs' =>
    match locate_in_ring q h with
    | Boundary => Boundary
    | Interior => Exterior
    | Exterior => locate_in_holes q hs'
    end
  end.

Definition locate_in_polygon (q : Vertex) (poly : Polygon) : Location :=
  match locate_in_ring q (shell poly) with
  | Interior => locate_in_holes q (holes poly)
  | l => l
  end.

Definition locate_point (g : option Polygon) (p : Point) : Location :=
  match g with
  | None => Exterior
  | Some poly =>
    if Float64.is_finite (fst p) && Float64.is_finite (snd p)
    then locate_in_polygon (Float64.to_Q (fst p), Float64.to_Q (snd p)) poly
    else Exterior
  end.

Definition read_boundary (f : Upload) : result (option Polygon) :=
  match f with
  | BoundaryFile feature => ret feature
  | TableFile _ => raise (PyError "not a boundary file")
  | Unreadable why => raise (PyError why)
  end.

Definition read_table (f : Upload) (sep : string) : result DataFrame :=
  match f with
  | TableFile rows => ret (range_index rows)
  | BoundaryFile _ => raise (PyError "not a table")
  | Unreadable why => raise (PyError why)
  end.

#[global] Instance library : Libraries := {
  UploadedFile := Upload;
  GeoDataFrame := option Polygon;
  Geometry := option Polygon;
  gpd_read_file := read_boundary;
  has_crs := fun _ => true;
  to_crs := fun _ gdf => ret gdf;
  set_crs := fun _ gdf => ret gdf;
  pd_read_csv := read_table;
  unary_union := fun gdf => ret gdf;
  locate := locate_point
}.

(** The same library with a union that raises whenever it is called. *)
Definition failing_union : Libraries := {|
  UploadedFile := Upload;
  GeoDataFrame := option Polygon;
  Geometry := option Polygon;
  gpd_read_file := read_boundary;
  has_crs := fun _ => true;
  to_crs := fun _ gdf => ret gdf;
  set_crs := fun _ gdf => ret gdf;
  pd_read_csv := read_table;
  unary_union := fun _ => raise (PyError "unary_union was called");
  locate := locate_point
|}.

(** The axis-parallel rectangle with corners [(x0, y0)] and [(x1, y1)]. *)
Definition box (x0 y0 x1 y1 : Q) : Polygon :=
  mkPolygon [(x0, y0); (x1, y0); (x1, y1); (x0, y1); (x0, y0)] [].

End OnePolygon.


(** ** The three frames of step 2, by name *)

(** The float that [clean_coord] hands back for a cell. *)
Definition coord (val : Cell) : float :=
  match clean_coord val with
  | inr v => v
  | inl _ => Float64.nan
  end.

Definition cell (col : nat) (r : nat * Row) : Cell := nth col (snd r) None.

Section Frames.

Variable df : DataFrame.
Variables x_col y_col : nat.

Definition clean_x : list float := map coord (column x_col df).
Definition clean_y : list float := map coord (column y_col df).

(** Line 87-88. *)
Definition df_clean : list CleanRow := assign df clean_x clean_y.

(** Lines 104-106. *)
Definition df_valid : list CleanRow := select (valid_mask clean_x clean_y) df_clean.
Definition df_zero : DataFrame := select (zero_mask clean_x clean_y) df.
Definition df_invalid : DataFrame := select (invalid_mask clean_x clean_y) df.

End Frames.

(** The tests of the masks on one record. *)
Definition is_zero (x y : float) : bool :=
  Float64.eqb x (Float64.of_Z 0) && Float64.eqb y (Float64.of_Z 0).

Definition in_range (x y : float) : bool :=
  (Float64.geb x (Float64.of_Z (-180)) && Float64.leb x (Float64.of_Z 180))
  && (Float64.geb y (Float64.of_Z (-90)) && Float64.leb y (Float64.of_Z 90)).

Definition is_valid (x y : float) : bool :=
  in_range x y && negb (is_zero x y)
  && negb (Float64.isnan x) && negb (Float64.isnan y).

Definition is_invalid (x y : float) : bool :=
  negb (is_valid x y || is_zero x y).

(** The cleaned row of a record. *)
Definition cleaned (x_col y_col : nat) (r : nat * Row) : CleanRow :=
  mkCleanRow r (coord (cell x_col r)) (coord (cell y_col r)).

(** The same tests on a record of the frame. *)
Definition row_is_zero (x_col y_col : nat) (r : nat * Row) : bool :=
  is_zero (coord (cell x_col r)) (coord (cell y_col r)).

Definition row_is_valid (x_col y_col : nat) (r : nat * Row) : bool :=
  is_valid (coord (cell x_col r)) (coord (cell y_col r)).

Definition row_is_invalid (x_col y_col : nat) (r : nat * Row) : bool :=
  is_invalid (coord (cell x_col r)) (coord (cell y_col r)).

(** A cell that gives no number: it is missing, or [float] raises on its
    trimmed text with commas turned into points. *)
Definition unparsed (val : Cell) : Prop :=
  val = None
  \/ exists s e, val = Some s /\ py_float (replace "," "." (strip s)) = inl e.

Inductive Category : Type := Zero | Invalid | Valid.

(** The category a record is given: the frame of step 2 it is put in. *)
Definition assigned (df : DataFrame) (x_col y_col : nat)
           (r : nat * Row) (c : Category) : Prop :=
  match c with
  | Zero => In r (df_zero df x_col y_col)
  | Invalid => In r (df_invalid df x_col y_col)
  | Valid => In (cleaned x_col y_col r) (df_valid df x_col y_col)
  end.

(** [classify] as the specification words it, rule by rule. *)
Definition classify_spec (x y : float) : Category :=
  if Float64.isnan x || Float64.isnan y then Invalid
  else if is_zero x y then Zero
  else if in_range x y then Valid
  else Invalid.

(** A list taken from another one without reordering. *)
Inductive Subsequence {A : Type} : list A -> list A -> Prop :=
| Subsequence_nil : Subsequence [] []
| Subsequence_skip : forall a l m, Subsequence l m -> Subsequence l (a :: m)
| Subsequence_keep : forall a l m, Subsequence l m -> Subsequence (a :: l) (a :: m).

(** A float is a well-formed binary64 value. *)
Definition well_formed (x : float) : bool :=
  valid_binary Float64.prec Float64.emax x.

(** ** The scenario of five records *)

Module Scenario.

Definition rows : list Row :=
  [ [Some "0"; Some "0"];
    [Some "abc"; Some "abc"];
    [Some "200"; Some "0"];
    [Some "10"; Some "20"];
    [Some "10.5"; Some "20.5"] ].

Definition df : DataFrame := range_index rows.

Definition square : OnePolygon.Polygon := OnePolygon.box 10 20 11 21.

Definition f64 (m : positive) (e : Z) : float := S754_finite false m e.

(** 10, 20, 10.5 and 20.5 as binary64. *)
(** 45.123, the binary64 nearest to 45123/1000. *)
Definition forty_five_123 : float := f64 6350497687057465 (-47).

Definition ten : float := f64 5629499534213120 (-49).
Definition twenty : float := f64 5629499534213120 (-48).
Definition ten_and_half : float := f64 5910974510923776 (-49).
Definition twenty_and_half : float := f64 5770237022568448 (-48).

Definition record3 : nat * Row := (3, [Some "10"; Some "20"]).

Definition row3 : CleanRow := mkCleanRow record3 ten twenty.
Definition row4 : CleanRow :=
  mkCleanRow (4, [Some "10.5"; Some "20.5"]) ten_and_half twenty_and_half.

(** Records on the edge of the ranges, and one just beyond. *)
Definition edges : DataFrame :=
  range_index [ [Some "180"; Some "90"];
                [Some "-180"; Some "-90"];
                [Some "180.0001"; Some "0"] ].

Definition point_of (c : CleanRow) (s : Status) : PointRow :=
  mkPointRow c (lon c, lat c) s.

(** The partition the specification expects, and the one the code gives. *)
Definition expected : Results :=
  Bundle [point_of row3 Inside; point_of row4 Inside]
         [(1, [Some "abc"; Some "abc"]); (2, [Some "200"; Some "0"])]
         [(0, [Some "0"; Some "0"])] 5 0 1.

Definition computed : Results :=
  Bundle [point_of row3 Outside; point_of row4 Inside]
         [(1, [Some "abc"; Some "abc"]); (2, [Some "200"; Some "0"])]
         [(0, [Some "0"; Some "0"])] 5 0 1.

(** Both valid points tagged [Outside]. *)
Definition all_outside : Results :=
  Bundle [point_of row3 Outside; point_of row4 Outside]
         [(1, [Some "abc"; Some "abc"]); (2, [Some "200"; Some "0"])]
         [(0, [Some "0"; Some "0"])] 5 0 1.

End Scenario.


(** A row of [gdf_points] made from a row of [df_valid], lines 110-114. *)
Definition tag {L : Libraries} (polygon_union : Geometry) (c : CleanRow)
  : PointRow :=
  mkPointRow c (lon c, lat c) (status_of (within (lon c, lat c) polygon_union)).

(** Record [r] has a row in [gdf_points] whose status is [s]. *)
Definition carries (gdf_points : list PointRow) (r : nat * Row) (s : Status)
  : Prop :=
  exists p, In p gdf_points /\ origin (point_row p) = r /\ location_status p = s.


(** ** Widgets and rendering *)

(** Lines 69 and 71: the positions preselected in the two column selectors,
    [index=0] and [index=1 if len(columns) > 1 else 0]. *)
Definition default_x_col (columns : list string) : nat := 0.

Definition default_y_col (columns : list string) : nat :=
  if (1 <? List.length columns)%nat then 1 else 0.

Definition is_outside (p : PointRow) : bool :=
  match location_status p with
  | Outside => true
  | Inside => false
  end.

(** Line 167: the rows of [gdf_points] with status ['Outside'], the geometry
    column dropped. *)
Definition outside_points (gdf_points : list PointRow)
  : list (CleanRow * Status) :=
  map (fun p => (point_row p, location_status p))
      (filter is_outside gdf_points).

(** The five metrics of the summary tab, lines 186-191. *)
Record Summary : Type := mkSummary {
  total_rows : nat;
  valid_rows : nat;
  zero_rows : nat;
  invalid_rows : nat;
  outside_boundary : nat
}.

(** The summary tab is drawn for a bundle only (line 132). *)
Definition summary (res : Results) : option Summary :=
  match res with
  | NoData _ => None
  | Bundle gdf_points df_invalid df_zero df_raw_len _ _ =>
    Some (mkSummary df_raw_len (List.length gdf_points) (List.length df_zero)
                    (List.length df_invalid)
                    (List.length (filter is_outside gdf_points)))
  end.

(** A [folium.CircleMarker]: where it is, as (latitude, longitude), its
    radius, its colour and its popup. *)
Record Marker : Type := mkMarker {
  marker_at : float * float;
  radius : nat;
  color : string;
  popup : option string
}.

Definition status_str (s : Status) : string :=
  match s with
  | Inside => "Inside"
  | Outside => "Outside"
  end.

(** Lines 153-162: one marker for each point below 2000 points, else a
    single grey one at the centre of the points. *)
Definition markers (center : float * float) (gdf_points : list PointRow)
  : list Marker :=
  if (List.length gdf_points <? 2000)%nat then
    map (fun row =>
           let color :=
             match location_status row with
             | Inside => "#2ecc71"
             | Outside => "#e74c3c"
             end in
           mkMarker (lat (point_row row), lon (point_row row)) 4 color
                    (Some ("Status: " ++ status_str (location_status row))))
        gdf_points
  else [mkMarker center 1 "gray" None].

(** The number of times a character occurs. *)
Fixpoint occurrences (c : ascii) (l : list ascii) : nat :=
  match l with
  | [] => 0
  | a :: l' => (if Ascii.eqb a c then 1 else 0) + occurrences c l'
  end.

Definition count_char (c : ascii) (s : string) : nat :=
  occurrences c (list_ascii_of_string s).

(** * Properties *)

(** ** Series and masks over one frame *)

Section MaskFacts.

Context {R A B C : Type}.

Lemma zip_with_map (f : A -> B -> C) (a : R -> A) (b : R -> B) (l : list R) :
  zip_with f (map a l) (map b l) = map (fun r => f (a r) (b r)) l.
Proof.
  induction l as [|r l IH]; simpl; [reflexivity|].
  now rewrite IH.
Qed.

Lemma select_map (p : R -> bool) (g : R -> A) (l : list R) :
  select (map p l) (map g l) = map g (filter p l).
Proof.
  induction l as [|r l IH]; simpl; [reflexivity|].
  destruct (p r); simpl; now rewrite IH.
Qed.

Lemma select_filter (p : R -> bool) (l : list R) :
  select (map p l) l = filter p l.
Proof.
  induction l as [|r l IH]; simpl; [reflexivity|].
  destruct (p r); now rewrite IH.
Qed.

End MaskFacts.

Lemma assign_map (a b : nat * Row -> float) (df : DataFrame) :
  assign df (map a df) (map b df) = map (fun r => mkCleanRow r (a r) (b r)) df.
Proof.
  induction df as [|r df IH]; simpl; [reflexivity|].
  now rewrite IH.
Qed.

Section MasksOfFrame.

Context {R : Type}.
Variables a b : R -> float.
Variable l : list R.

Lemma zero_mask_map :
  zero_mask (map a l) (map b l) = map (fun r => is_zero (a r) (b r)) l.
Proof.
  unfold zero_mask, mask_and, series_eq.
  rewrite !map_map.
  apply (zip_with_map andb).
Qed.

Lemma valid_range_mask_map :
  valid_range_mask (map a l) (map b l) = map (fun r => in_range (a r) (b r)) l.
Proof.
  unfold valid_range_mask, mask_and, between.
  rewrite !map_map.
  apply (zip_with_map andb).
Qed.

Lemma valid_mask_map :
  valid_mask (map a l) (map b l) = map (fun r => is_valid (a r) (b r)) l.
Proof.
  unfold valid_mask.
  rewrite valid_range_mask_map, zero_mask_map.
  unfold mask_and, mask_not, notna.
  rewrite !map_map.
  now rewrite !(zip_with_map andb).
Qed.

Lemma invalid_mask_map :
  invalid_mask (map a l) (map b l) = map (fun r => is_invalid (a r) (b r)) l.
Proof.
  unfold invalid_mask.
  rewrite valid_mask_map, zero_mask_map.
  unfold mask_or, mask_not.
  rewrite (zip_with_map orb).
  now rewrite map_map.
Qed.

End MasksOfFrame.

(** ** The three frames as filters *)

Section FramesAsFilters.

Variable df : DataFrame.
Variables x_col y_col : nat.

Lemma clean_x_map : clean_x df x_col = map (fun r => coord (cell x_col r)) df.
Proof. unfold clean_x, column. now rewrite map_map. Qed.

Lemma clean_y_map : clean_y df y_col = map (fun r => coord (cell y_col r)) df.
Proof. unfold clean_y, column. now rewrite map_map. Qed.

Lemma df_clean_map : df_clean df x_col y_col = map (cleaned x_col y_col) df.
Proof.
  unfold df_clean.
  rewrite clean_x_map, clean_y_map.
  apply assign_map.
Qed.

Lemma df_zero_filter : df_zero df x_col y_col = filter (row_is_zero x_col y_col) df.
Proof.
  unfold df_zero.
  rewrite clean_x_map, clean_y_map, zero_mask_map.
  apply select_filter.
Qed.

Lemma df_invalid_filter :
  df_invalid df x_col y_col = filter (row_is_invalid x_col y_col) df.
Proof.
  unfold df_invalid.
  rewrite clean_x_map, clean_y_map, invalid_mask_map.
  apply select_filter.
Qed.

Lemma df_valid_filter :
  df_valid df x_col y_col
  = map (cleaned x_col y_col) (filter (row_is_valid x_col y_col) df).
Proof.
  unfold df_valid.
  rewrite df_clean_map, clean_x_map, clean_y_map, valid_mask_map.
  apply select_map.
Qed.

Lemma origin_df_valid :
  map origin (df_valid df x_col y_col) = filter (row_is_valid x_col y_col) df.
Proof.
  rewrite df_valid_filter, map_map.
  apply map_id.
Qed.

End FramesAsFilters.


(** ** Cleaning never raises *)

Lemma clean_coord_coord (val : Cell) : clean_coord val = inr (coord val).
Proof.
  unfold coord.
  destruct val as [s|]; simpl; [|reflexivity].
  destruct (py_float _); reflexivity.
Qed.

Lemma apply_clean_coord (s : list Cell) :
  apply clean_coord s = inr (map coord s).
Proof.
  induction s as [|val s IH]; simpl; [reflexivity|].
  now rewrite clean_coord_coord, IH.
Qed.

(** ** The body of the button in closed form *)

Lemma tag_all {L : Libraries} (pu : Geometry) (l : list CleanRow) :
  zip_with (fun r p => mkPointRow r p (status_of (within p pu)))
           l (map (fun r => (lon r, lat r)) l)
  = map (tag pu) l.
Proof.
  induction l as [|c l IH]; simpl; [reflexivity|].
  now rewrite IH.
Qed.

Lemma run_analysis_eq {L : Libraries} (gdf_polygon : GeoDataFrame)
      (df : DataFrame) (x_col y_col : nat) :
  run_analysis gdf_polygon df x_col y_col =
  if is_empty (df_valid df x_col y_col) then inr (NoData no_valid_data)
  else
    match unary_union gdf_polygon with
    | inl e => inl e
    | inr pu =>
      inr (Bundle (map (tag pu) (df_valid df x_col y_col))
                  (df_invalid df x_col y_col) (df_zero df x_col y_col)
                  (List.length df) x_col y_col)
    end.
Proof.
  unfold run_analysis.
  rewrite !apply_clean_coord.
  cbn [bind Monad_result Monad_either ret].
  fold (clean_x df x_col) (clean_y df y_col).
  fold (df_clean df x_col y_col).
  fold (df_valid df x_col y_col) (df_zero df x_col y_col)
       (df_invalid df x_col y_col).
  destruct (is_empty (df_valid df x_col y_col)); simpl; [reflexivity|].
  destruct (unary_union gdf_polygon) as [e|pu]; [reflexivity|].
  now rewrite tag_all.
Qed.

(** ** The tests on one record *)

Lemma valid_not_zero (x y : float) : is_valid x y = true -> is_zero x y = false.
Proof.
  unfold is_valid.
  destruct (is_zero x y); [|reflexivity].
  rewrite andb_false_r. discriminate.
Qed.

Lemma one_of_three (x y : float) :
  (is_valid x y = true /\ is_zero x y = false /\ is_invalid x y = false)
  \/ (is_valid x y = false /\ is_zero x y = true /\ is_invalid x y = false)
  \/ (is_valid x y = false /\ is_zero x y = false /\ is_invalid x y = true).
Proof.
  unfold is_invalid.
  destruct (is_valid x y) eqn:V.
  - left. now rewrite (valid_not_zero _ _ V).
  - destruct (is_zero x y); [right; left | right; right]; auto.
Qed.

Lemma nan_fails_tests (x y : float) :
  Float64.isnan x = true \/ Float64.isnan y = true ->
  is_zero x y = false /\ is_valid x y = false /\ is_invalid x y = true.
Proof.
  intros [H|H].
  - destruct x; try discriminate. repeat split; reflexivity.
  - destruct y; try discriminate.
    unfold is_invalid, is_valid, is_zero.
    rewrite !andb_false_r. repeat split; reflexivity.
Qed.

Lemma leb_nan_l (x : float) : Float64.leb Float64.nan x = false.
Proof. reflexivity. Qed.

Lemma leb_nan_r (x : float) : Float64.leb x Float64.nan = false.
Proof. destruct x; reflexivity. Qed.

Lemma in_range_not_nan (x y : float) :
  in_range x y = true -> Float64.isnan x = false /\ Float64.isnan y = false.
Proof.
  unfold in_range, Float64.geb. intros H.
  apply andb_true_iff in H as [Hx Hy].
  apply andb_true_iff in Hx as [_ Hx].
  apply andb_true_iff in Hy as [_ Hy].
  split.
  - destruct x; try reflexivity. now rewrite (leb_nan_l _) in Hx.
  - destruct y; try reflexivity. now rewrite (leb_nan_l _) in Hy.
Qed.

Lemma classify_refines (x y : float) :
  match classify_spec x y with
  | Zero => is_zero x y = true
  | Valid => is_valid x y = true
  | Invalid => is_invalid x y = true
  end.
Proof.
  unfold classify_spec.
  destruct (Float64.isnan x || Float64.isnan y) eqn:N.
  - apply nan_fails_tests. now apply orb_true_iff.
  - apply orb_false_iff in N as [Nx Ny].
    destruct (is_zero x y) eqn:Z; [reflexivity|].
    unfold is_invalid, is_valid.
    rewrite Z, Nx, Ny.
    destruct (in_range x y); reflexivity.
Qed.

(** ** Membership in the three frames *)

Section Membership.

Variable df : DataFrame.
Variables x_col y_col : nat.

Lemma cleaned_inj (r r' : nat * Row) :
  cleaned x_col y_col r = cleaned x_col y_col r' -> r = r'.
Proof. intros H. exact (f_equal origin H). Qed.

Lemma assigned_Zero (r : nat * Row) :
  assigned df x_col y_col r Zero <-> In r df /\ row_is_zero x_col y_col r = true.
Proof. simpl. rewrite df_zero_filter. apply filter_In. Qed.

Lemma assigned_Invalid (r : nat * Row) :
  assigned df x_col y_col r Invalid
  <-> In r df /\ row_is_invalid x_col y_col r = true.
Proof. simpl. rewrite df_invalid_filter. apply filter_In. Qed.

Lemma assigned_Valid (r : nat * Row) :
  assigned df x_col y_col r Valid
  <-> In r df /\ row_is_valid x_col y_col r = true.
Proof.
  simpl. rewrite df_valid_filter, in_map_iff. split.
  - intros (r' & E & H). apply cleaned_inj in E. subst r'.
    now apply filter_In.
  - intros H. exists r. split; [reflexivity|]. now apply filter_In.
Qed.

Lemma assigned_in (r : nat * Row) (c : Category) :
  assigned df x_col y_col r c -> In r df.
Proof.
  destruct c; intros H.
  - now apply assigned_Zero in H.
  - now apply assigned_Invalid in H.
  - now apply assigned_Valid in H.
Qed.

Lemma assigned_total (r : nat * Row) :
  In r df -> exists c, assigned df x_col y_col r c.
Proof.
  intros H.
  destruct (one_of_three (coord (cell x_col r)) (coord (cell y_col r)))
    as [(V & _) | [(_ & Z & _) | (_ & _ & I)]].
  - exists Valid. now apply assigned_Valid.
  - exists Zero. now apply assigned_Zero.
  - exists Invalid. now apply assigned_Invalid.
Qed.

Lemma assigned_unique (r : nat * Row) (c c' : Category) :
  assigned df x_col y_col r c -> assigned df x_col y_col r c' -> c = c'.
Proof.
  intros H H'.
  assert (T := one_of_three (coord (cell x_col r)) (coord (cell y_col r))).
  destruct c;
    [apply assigned_Zero in H | apply assigned_Invalid in H
     | apply assigned_Valid in H];
    (destruct c';
     [apply assigned_Zero in H' | apply assigned_Invalid in H'
      | apply assigned_Valid in H']);
    try reflexivity;
    destruct H as [_ H]; destruct H' as [_ H'];
    unfold row_is_zero, row_is_valid, row_is_invalid in H, H';
    destruct T as [(V & Z & I) | [(V & Z & I) | (V & Z & I)]]; congruence.
Qed.

End Membership.

(** ** Filters: permutation and order *)

Section Filters.

Context {A : Type}.

Lemma three_filters_permutation (f g h : A -> bool) (l : list A) :
  (forall a, In a l ->
     (f a = true /\ g a = false /\ h a = false)
     \/ (f a = false /\ g a = true /\ h a = false)
     \/ (f a = false /\ g a = false /\ h a = true)) ->
  Permutation (filter f l ++ filter g l ++ filter h l) l.
Proof.
  induction l as [|a l IH]; intros H; simpl; [constructor|].
  assert (IH' := IH (fun b Hb => H b (or_intror Hb))).
  destruct (H a (or_introl eq_refl))
    as [(F & G & K) | [(F & G & K) | (F & G & K)]];
    rewrite F, G, K; simpl.
  - now constructor.
  - symmetry. apply Permutation_cons_app. now symmetry.
  - symmetry. rewrite app_assoc. apply Permutation_cons_app.
    rewrite <- app_assoc. now symmetry.
Qed.

Lemma filter_subsequence (f : A -> bool) (l : list A) :
  Subsequence (filter f l) l.
Proof.
  induction l as [|a l IH]; simpl; [constructor|].
  destruct (f a); now constructor.
Qed.

End Filters.

Lemma carries_tag {L : Libraries} (pu : Geometry) (df : DataFrame)
      (x_col y_col : nat) (r : nat * Row) (s : Status) :
  carries (map (tag pu) (df_valid df x_col y_col)) r s
  <-> assigned df x_col y_col r Valid
      /\ s = status_of (within (coord (cell x_col r), coord (cell y_col r)) pu).
Proof.
  unfold carries. split.
  - intros (p & Hp & Ho & Hs).
    apply in_map_iff in Hp as (c & <- & Hc).
    simpl in Ho, Hs. subst r s.
    assert (Hc' := Hc).
    rewrite df_valid_filter in Hc'.
    apply in_map_iff in Hc' as (r & <- & _).
    split; [exact Hc | reflexivity].
  - intros (H & ->).
    exists (tag pu (cleaned x_col y_col r)).
    split; [|split; reflexivity].
    apply in_map. exact H.
Qed.

(** ** Claims *)

(** C1.  The three frames of step 2 split the records of the input: put
    together they are a rearrangement of the input frame, their sizes add up
    to the number of input rows, and every input record is given one category
    and one only.  In the bundle that the analysis stores, the valid rows are
    the rows of [gdf_points], and a record carries one status, [Inside] or
    [Outside], when it is valid and none when it is zero or invalid.  Such a
    bundle is stored whenever some record is valid and the boundary is
    merged without an exception: it holds the three frames, each valid row
    with the status of its point. *)
Theorem partition_total_and_exclusive {L : Libraries}
        (df : DataFrame) (x_col y_col : nat) :
  Permutation (map origin (df_valid df x_col y_col)
               ++ df_zero df x_col y_col ++ df_invalid df x_col y_col)%list df
  /\ (List.length (df_valid df x_col y_col)
      + List.length (df_zero df x_col y_col)
      + List.length (df_invalid df x_col y_col) = List.length df)%nat
  /\ (forall r, In r df ->
        exists c, assigned df x_col y_col r c
                  /\ forall c', assigned df x_col y_col r c' -> c' = c)
  /\ (forall gdf_polygon pts inv zer n xc yc,
        run_analysis gdf_polygon df x_col y_col
        = inr (Bundle pts inv zer n xc yc) ->
        map point_row pts = df_valid df x_col y_col
        /\ zer = df_zero df x_col y_col
        /\ inv = df_invalid df x_col y_col
        /\ n = List.length df
        /\ forall r, In r df ->
             (assigned df x_col y_col r Valid ->
                (carries pts r Inside \/ carries pts r Outside)
                /\ ~ (carries pts r Inside /\ carries pts r Outside))
             /\ (assigned df x_col y_col r Zero
                 \/ assigned df x_col y_col r Invalid ->
                 forall s, ~ carries pts r s))
  /\ (forall gdf_polygon polygon_union,
        df_valid df x_col y_col <> [] ->
        unary_union gdf_polygon = inr polygon_union ->
        run_analysis gdf_polygon df x_col y_col
        = inr (Bundle (map (tag polygon_union) (df_valid df x_col y_col))
                      (df_invalid df x_col y_col) (df_zero df x_col y_col)
                      (List.length df) x_col y_col)).
Proof.
  assert (P : Permutation
                (map origin (df_valid df x_col y_col)
                 ++ df_zero df x_col y_col ++ df_invalid df x_col y_col)%list
                df).
  { rewrite origin_df_valid, df_zero_filter, df_invalid_filter.
    apply three_filters_permutation.
    intros r _. apply one_of_three. }
  split; [exact P|].
  split.
  { apply Permutation_length in P.
    rewrite !length_app, length_map in P. lia. }
  split.
  { intros r Hr.
    destruct (assigned_total df x_col y_col r Hr) as [c Hc].
    exists c. split; [exact Hc|].
    intros c' Hc'. exact (assigned_unique df x_col y_col r c' c Hc' Hc). }
  split.
  2:{ intros gdf_polygon polygon_union N U.
      rewrite run_analysis_eq, U.
      destruct (df_valid df x_col y_col); [contradiction|reflexivity]. }
  intros gdf_polygon pts inv zer n xc yc Hrun.
  rewrite run_analysis_eq in Hrun.
  destruct (is_empty (df_valid df x_col y_col)); [discriminate|].
  destruct (unary_union gdf_polygon) as [e|pu]; [discriminate|].
  injection Hrun as <- <- <- <- _ _.
  split.
  { rewrite map_map. apply map_id. }
  do 3 (split; [reflexivity|]).
  intros r Hr. split.
  - intros Hv. split.
    + destruct (within (coord (cell x_col r), coord (cell y_col r)) pu) eqn:W;
        [left | right]; apply carries_tag; rewrite W; now split.
    + intros [Hi Ho].
      apply carries_tag in Hi as [_ Hi].
      apply carries_tag in Ho as [_ Ho].
      destruct (within _ pu); discriminate.
  - intros Hzi s Hs.
    apply carries_tag in Hs as [Hv _].
    destruct Hzi as [Hz|Hi].
    + discriminate (assigned_unique df x_col y_col r _ _ Hv Hz).
    + discriminate (assigned_unique df x_col y_col r _ _ Hv Hi).
Qed.

Lemma partition_total_and_exclusive_witness :
  run_analysis (L := OnePolygon.library) (Some Scenario.square)
               Scenario.df 0 1
  = inr (Bundle (map (tag (L := OnePolygon.library) (Some Scenario.square))
                     (df_valid Scenario.df 0 1))
                (df_invalid Scenario.df 0 1) (df_zero Scenario.df 0 1)
                (List.length Scenario.df) 0 1).
Proof.
  apply (proj2 (proj2 (proj2 (proj2
           (partition_total_and_exclusive (L := OnePolygon.library)
                                          Scenario.df 0 1))))).
  - vm_compute. discriminate.
  - reflexivity.
Defined.

(** C9.  Each of the three frames lists its records in the order of the
    input: it is the input with some rows left out.  The same holds for the
    frames of the bundle that the analysis stores. *)
Theorem partitions_keep_order {L : Libraries}
        (df : DataFrame) (x_col y_col : nat) :
  Subsequence (map origin (df_valid df x_col y_col)) df
  /\ Subsequence (df_zero df x_col y_col) df
  /\ Subsequence (df_invalid df x_col y_col) df
  /\ (forall gdf_polygon pts inv zer n xc yc,
        run_analysis gdf_polygon df x_col y_col
        = inr (Bundle pts inv zer n xc yc) ->
        Subsequence (map (fun p => origin (point_row p)) pts) df
        /\ Subsequence zer df
        /\ Subsequence inv df).
Proof.
  assert (V : Subsequence (map origin (df_valid df x_col y_col)) df).
  { rewrite origin_df_valid. apply filter_subsequence. }
  assert (Z : Subsequence (df_zero df x_col y_col) df).
  { rewrite df_zero_filter. apply filter_subsequence. }
  assert (I : Subsequence (df_invalid df x_col y_col) df).
  { rewrite df_invalid_filter. apply filter_subsequence. }
  repeat split; try assumption;
    rewrite run_analysis_eq in H;
    destruct (is_empty (df_valid df x_col y_col)); try discriminate;
    destruct (unary_union gdf_polygon) as [e|pu]; try discriminate;
    injection H as <- <- <- _ _ _; try assumption.
  rewrite map_map. exact V.
Qed.

(** C3.  A record whose two cleaned coordinates are both zero (of either
    sign) is put in the zero frame, and in neither of the other two,
    although the pair passes the range test. *)
Theorem zero_pair_is_zero (df : DataFrame) (x_col y_col : nat)
        (r : nat * Row) (sx sy : bool) :
  In r df ->
  coord (cell x_col r) = S754_zero sx ->
  coord (cell y_col r) = S754_zero sy ->
  assigned df x_col y_col r Zero
  /\ ~ assigned df x_col y_col r Valid
  /\ ~ assigned df x_col y_col r Invalid
  /\ in_range (coord (cell x_col r)) (coord (cell y_col r)) = true.
Proof.
  intros Hr Hx Hy.
  assert (Z : assigned df x_col y_col r Zero).
  { apply assigned_Zero. split; [exact Hr|].
    unfold row_is_zero. rewrite Hx, Hy. reflexivity. }
  split; [exact Z|].
  split; [|split].
  - intros V. discriminate (assigned_unique df x_col y_col r _ _ V Z).
  - intros I. discriminate (assigned_unique df x_col y_col r _ _ I Z).
  - rewrite Hx, Hy. now destruct sx, sy.
Qed.

Lemma zero_pair_is_zero_witness :
  assigned Scenario.df 0 1 (0, [Some "0"; Some "0"]) Zero
  /\ ~ assigned Scenario.df 0 1 (0, [Some "0"; Some "0"]) Valid
  /\ ~ assigned Scenario.df 0 1 (0, [Some "0"; Some "0"]) Invalid
  /\ in_range (coord (cell 0 (0, [Some "0"; Some "0"])))
              (coord (cell 1 (0, [Some "0"; Some "0"]))) = true.
Proof.
  apply (zero_pair_is_zero Scenario.df 0 1 (0, [Some "0"; Some "0"])
                           false false).
  - left. reflexivity.
  - reflexivity.
  - reflexivity.
Defined.

(** C5.  A record with a coordinate that is NaN after cleaning, be it that
    the cell is missing, that its text does not convert, or that it converts
    to NaN, is put in the invalid frame and in neither of the other two. *)
Theorem nan_is_invalid (df : DataFrame) (x_col y_col : nat) (r : nat * Row) :
  In r df ->
  unparsed (cell x_col r) \/ unparsed (cell y_col r)
  \/ Float64.isnan (coord (cell x_col r)) = true
  \/ Float64.isnan (coord (cell y_col r)) = true ->
  assigned df x_col y_col r Invalid
  /\ ~ assigned df x_col y_col r Valid
  /\ ~ assigned df x_col y_col r Zero.
Proof.
  intros Hr H.
  assert (U : forall val, unparsed val -> Float64.isnan (coord val) = true).
  { intros val [-> | (s & e & -> & E)]; [reflexivity|].
    unfold coord, clean_coord. now rewrite E. }
  assert (N : Float64.isnan (coord (cell x_col r)) = true
              \/ Float64.isnan (coord (cell y_col r)) = true).
  { destruct H as [H | [H | [H | H]]]; auto. }
  apply nan_fails_tests in N as (Z & V & I).
  assert (A : assigned df x_col y_col r Invalid).
  { apply assigned_Invalid. now split. }
  split; [exact A|]. split.
  - intros K. discriminate (assigned_unique df x_col y_col r _ _ K A).
  - intros K. discriminate (assigned_unique df x_col y_col r _ _ K A).
Qed.

Lemma nan_is_invalid_witness :
  assigned Scenario.df 0 1 (1, [Some "abc"; Some "abc"]) Invalid
  /\ ~ assigned Scenario.df 0 1 (1, [Some "abc"; Some "abc"]) Valid
  /\ ~ assigned Scenario.df 0 1 (1, [Some "abc"; Some "abc"]) Zero.
Proof.
  apply (nan_is_invalid Scenario.df 0 1 (1, [Some "abc"; Some "abc"])).
  - right. left. reflexivity.
  - left. right.
    exists "abc", (PyError "could not convert string to float: abc").
    split; reflexivity.
Defined.


(** C7.  When no record is valid the analysis stores the "no valid data"
    outcome, whatever the libraries do: the union of the boundary is not
    computed and no point is located.  The run of the script then goes
    through to its end and shows that message; it is neither stopped nor
    ended by an exception. *)
Theorem empty_valid_reports_no_data {L : Libraries}
        (gdf_polygon : GeoDataFrame) (df : DataFrame) (x_col y_col : nat) :
  df_valid df x_col y_col = [] ->
  run_analysis gdf_polygon df x_col y_col = inr (NoData no_valid_data)
  /\ forall g c sep results,
       load_geojson g = inr gdf_polygon ->
       load_csv c sep = inr df ->
       script (Some g) (Some c) sep x_col y_col true results
       = Completed [no_valid_data] (Some (NoData no_valid_data)).
Proof.
  intros E.
  assert (R : run_analysis gdf_polygon df x_col y_col
              = inr (NoData no_valid_data)).
  { rewrite run_analysis_eq, E. reflexivity. }
  split; [exact R|].
  intros g c sep results Hg Hc.
  unfold script. now rewrite Hg, Hc, R.
Qed.

Lemma empty_valid_reports_no_data_witness :
  run_analysis (L := OnePolygon.failing_union) (Some Scenario.square)
               (range_index [[Some "0"; Some "0"]; [Some "200"; None]]) 0 1
  = inr (NoData no_valid_data).
Proof.
  apply (empty_valid_reports_no_data (L := OnePolygon.failing_union)).
  reflexivity.
Defined.

(** When some record is valid the union is computed: if it raises, so does
    the analysis. *)
Lemma union_called_when_valid {L : Libraries}
      (gdf_polygon : GeoDataFrame) (df : DataFrame) (x_col y_col : nat)
      (e : exn) :
  df_valid df x_col y_col <> [] ->
  unary_union gdf_polygon = inl e ->
  run_analysis gdf_polygon df x_col y_col = inl e.
Proof.
  intros N U. rewrite run_analysis_eq, U.
  destruct (df_valid df x_col y_col); [contradiction|reflexivity].
Qed.

(** C10.  In the bundle that the analysis stores, a point that lies on the
    boundary of the merged geometry has status [Outside]; a point has status
    [Inside] exactly when it lies in the interior. *)
Theorem on_boundary_is_outside {L : Libraries}
        (gdf_polygon : GeoDataFrame) (df : DataFrame) (x_col y_col : nat)
        (polygon_union : Geometry) (pts : list PointRow)
        (inv zer : DataFrame) (n xc yc : nat) :
  unary_union gdf_polygon = inr polygon_union ->
  run_analysis gdf_polygon df x_col y_col = inr (Bundle pts inv zer n xc yc) ->
  forall p, In p pts ->
    geometry p = (lon (point_row p), lat (point_row p))
    /\ (locate polygon_union (geometry p) = Boundary ->
        location_status p = Outside)
    /\ (location_status p = Inside
        <-> locate polygon_union (geometry p) = Interior).
Proof.
  intros U R p Hp.
  rewrite run_analysis_eq, U in R.
  destruct (is_empty (df_valid df x_col y_col)); [discriminate|].
  injection R as <- _ _ _ _ _.
  apply in_map_iff in Hp as (c & <- & _).
  unfold tag, within; simpl.
  split; [reflexivity|].
  destruct (locate polygon_union (lon c, lat c)); simpl;
    (split; [intros K | split; intros K]); congruence.
Qed.

Lemma on_boundary_is_outside_witness :
  geometry (Scenario.point_of Scenario.row3 Outside)
  = (lon Scenario.row3, lat Scenario.row3)
  /\ (@locate OnePolygon.library (Some Scenario.square)
             (geometry (Scenario.point_of Scenario.row3 Outside)) = Boundary ->
      location_status (Scenario.point_of Scenario.row3 Outside) = Outside)
  /\ (location_status (Scenario.point_of Scenario.row3 Outside) = Inside
      <-> @locate OnePolygon.library (Some Scenario.square)
                 (geometry (Scenario.point_of Scenario.row3 Outside))
          = Interior).
Proof.
  apply (on_boundary_is_outside (L := OnePolygon.library)
           (Some Scenario.square) Scenario.df 0 1 (Some Scenario.square)
           [Scenario.point_of Scenario.row3 Outside;
            Scenario.point_of Scenario.row4 Inside]
           [(1, [Some "abc"; Some "abc"]); (2, [Some "200"; Some "0"])]
           [(0, [Some "0"; Some "0"])] 5 0 1).
  - reflexivity.
  - vm_compute. reflexivity.
  - left. reflexivity.
Defined.

(** C8, as the code has it.  When reading the boundary file, or giving it
    the reference system, raises, the run shows the cause and stops there:
    the table is not read and nothing is classified, whatever the widgets
    and the session hold. *)
Theorem unreadable_boundary_stops {L : Libraries}
        (g c : UploadedFile) (sep : string) (x_col y_col : nat)
        (run_clicked : bool) (results : option Results) (e : exn) :
  load_geojson g = inl e ->
  script (Some g) (Some c) sep x_col y_col run_clicked results
  = Stopped ["Error reading GeoJSON: " ++ exn_str e].
Proof.
  intros H. unfold script. now rewrite H.
Qed.

Lemma unreadable_boundary_stops_witness :
  script (L := OnePolygon.library)
         (Some (OnePolygon.Unreadable "unexpected end of data"))
         (Some (OnePolygon.TableFile Scenario.rows)) "," 0 1 true None
  = Stopped ["Error reading GeoJSON: unexpected end of data"].
Proof.
  apply (unreadable_boundary_stops (L := OnePolygon.library)
           (OnePolygon.Unreadable "unexpected end of data")
           (OnePolygon.TableFile Scenario.rows) "," 0 1 true None
           (PyError "unexpected end of data")).
  reflexivity.
Defined.

(** C8, as stated, fails.  A boundary file with no feature is read without
    an exception; the run is not stopped, and the two valid records of the
    scenario are classified, both [Outside]. *)
Lemma empty_boundary_is_classified :
  script (L := OnePolygon.library)
         (Some (OnePolygon.BoundaryFile None))
         (Some (OnePolygon.TableFile Scenario.rows)) "," 0 1 true None
  = Completed ["Found 2 rows with invalid coordinates."]
              (Some Scenario.all_outside)
  /\ forall shown,
       script (L := OnePolygon.library)
              (Some (OnePolygon.BoundaryFile None))
              (Some (OnePolygon.TableFile Scenario.rows)) "," 0 1 true None
       <> Stopped shown.
Proof.
  assert (E : script (L := OnePolygon.library)
                     (Some (OnePolygon.BoundaryFile None))
                     (Some (OnePolygon.TableFile Scenario.rows))
                     "," 0 1 true None
              = Completed ["Found 2 rows with invalid coordinates."]
                          (Some Scenario.all_outside)).
  { vm_compute. reflexivity. }
  split; [exact E|].
  intros shown. rewrite E. discriminate.
Qed.

(** C2, as the code has it.  On the five records, with the square from
    (10, 20) to (11, 21) as boundary, the analysis stores: zero, row 0;
    invalid, rows 1 and 2; valid, row 3 with status [Outside] and row 4 with
    status [Inside]; five rows in all. *)
Theorem scenario_partition :
  run_analysis (L := OnePolygon.library) (Some Scenario.square)
               Scenario.df 0 1
  = inr Scenario.computed.
Proof. vm_compute. reflexivity. Qed.

(** C2, as stated, fails: row 3 is at the corner (10, 20) of the square, on
    its boundary, so its status is not [Inside]. *)
Lemma scenario_not_as_expected :
  run_analysis (L := OnePolygon.library) (Some Scenario.square)
               Scenario.df 0 1
  <> inr Scenario.expected.
Proof. intros H. vm_compute in H. discriminate H. Qed.


(** ** Trimming and comma replacement *)

Lemma lstrip_spec (s : string) :
  exists l, s = l ++ lstrip s /\ all_space l = true.
Proof.
  induction s as [|c s (l & E & A)]; simpl.
  - exists "". split; reflexivity.
  - destruct (isspace c) eqn:W.
    + exists (String c l). simpl. rewrite W, A. split; [now f_equal|reflexivity].
    + exists "". split; reflexivity.
Qed.

Lemma lstrip_head (s : string) :
  match lstrip s with
  | EmptyString => True
  | String c _ => isspace c = false
  end.
Proof.
  induction s as [|c s IH]; simpl; [exact I|].
  destruct (isspace c) eqn:W; [exact IH|exact W].
Qed.

Lemma rstrip_spec (t : string) :
  exists r, t = rstrip t ++ r /\ all_space r = true.
Proof.
  induction t as [|c t (r & E & A)]; simpl.
  - exists "". split; reflexivity.
  - destruct (rstrip t) as [|a u] eqn:R.
    + simpl in E. subst r.
      destruct (isspace c) eqn:W.
      * exists (String c t). simpl. rewrite W, A. split; reflexivity.
      * exists t. split; [reflexivity|exact A].
    + exists r. split; [|exact A]. simpl in E |- *. now rewrite <- E.
Qed.

Lemma rstrip_last (t : string) :
  match rstrip t with
  | EmptyString => True
  | String c u => isspace (last_char u c) = false
  end.
Proof.
  induction t as [|c t IH]; simpl; [exact I|].
  destruct (rstrip t) as [|a u] eqn:R.
  - destruct (isspace c) eqn:W; [exact I|exact W].
  - exact IH.
Qed.

Lemma rstrip_head (c : ascii) (t : string) :
  isspace c = false -> exists u, rstrip (String c t) = String c u.
Proof.
  intros W. simpl.
  destruct (rstrip t) as [|a u].
  - rewrite W. now exists "".
  - now exists (String a u).
Qed.

Lemma append_assoc (a b c : string) : (a ++ b) ++ c = a ++ (b ++ c).
Proof.
  induction a as [|x a IH]; simpl; [reflexivity|]. now rewrite IH.
Qed.

Lemma strip_spec (s : string) :
  exists l r, s = l ++ strip s ++ r
              /\ all_space l = true /\ all_space r = true
              /\ trimmed (strip s) = true.
Proof.
  unfold strip.
  destruct (lstrip_spec s) as (l & El & Al).
  destruct (rstrip_spec (lstrip s)) as (r & Er & Ar).
  exists l, r. split; [|split; [exact Al|split; [exact Ar|]]].
  - rewrite <- Er. exact El.
  - assert (H := lstrip_head s).
    destruct (lstrip s) as [|c t]; [reflexivity|].
    destruct (rstrip_head c t H) as (u & Eu).
    assert (K := rstrip_last (String c t)).
    rewrite Eu in K |- *. simpl.
    now rewrite H, K.
Qed.

Lemma replace_get (old new : ascii) (s : string) (i : nat) :
  get i (replace old new s)
  = option_map (fun c => if Ascii.eqb c old then new else c) (get i s).
Proof.
  revert i. induction s as [|c s IH]; intros i; simpl; [reflexivity|].
  destruct i; [reflexivity|apply IH].
Qed.

(** C6.  [clean_coord] never raises.  A missing cell and an empty text give
    NaN.  For a text it trims the white space on both sides, turns every
    comma into a point, and hands the result to [float]: the number if the
    conversion succeeds, NaN if it raises.  The text "45,123" gives 45.123,
    the binary64 within half a unit in the last place of 45123/1000. *)
Theorem clean_coord_parses :
  (forall val, exists v, clean_coord val = inr v)
  /\ clean_coord None = inr Float64.nan
  /\ clean_coord (Some "") = inr Float64.nan
  /\ (forall s,
        clean_coord (Some s)
        = inr match py_float (replace "," "." (strip s)) with
              | inr v => v
              | inl _ => Float64.nan
              end)
  /\ (forall s, exists l r,
        s = l ++ strip s ++ r
        /\ all_space l = true /\ all_space r = true
        /\ trimmed (strip s) = true)
  /\ (forall s i,
        get i (replace "," "." s)
        = option_map (fun c => if Ascii.eqb c "," then "."%char else c)
                     (get i s))
  /\ clean_coord (Some "45,123") = inr Scenario.forty_five_123
  /\ clean_coord (Some "  45,123 ") = inr Scenario.forty_five_123
  /\ (Qabs (Float64.to_Q Scenario.forty_five_123 - (45123 # 1000))
      <= 1 # (2 ^ 48)%positive)%Q.
Proof.
  split.
  { intros val. exists (coord val). apply clean_coord_coord. }
  split; [reflexivity|].
  split; [reflexivity|].
  split.
  { intros s. simpl. destruct (py_float _); reflexivity. }
  split; [exact strip_spec|].
  split; [intros s i; apply replace_get|].
  split; [vm_compute; reflexivity|].
  split; [vm_compute; reflexivity|].
  vm_compute. discriminate.
Qed.


(** ** Comparison of well-formed floats *)

Section Comparison.

Local Open Scope Z_scope.

Lemma digits2_bounds (m : positive) :
  2 ^ (Zpos (digits2_pos m) - 1) <= Zpos m < 2 ^ Zpos (digits2_pos m).
Proof.
  induction m as [m IH | m IH |]; simpl digits2_pos.
  - rewrite Pos2Z.inj_succ.
    replace (Z.succ (Zpos (digits2_pos m)) - 1)
      with (Z.succ (Zpos (digits2_pos m) - 1)) by lia.
    rewrite !Z.pow_succ_r by lia. lia.
  - rewrite Pos2Z.inj_succ.
    replace (Z.succ (Zpos (digits2_pos m)) - 1)
      with (Z.succ (Zpos (digits2_pos m) - 1)) by lia.
    rewrite !Z.pow_succ_r by lia. lia.
  - simpl. lia.
Qed.

Lemma canonical_shape (m : positive) (e : Z) :
  bounded Float64.prec Float64.emax m e = true ->
  - 1074 <= e
  /\ Zpos m < 2 ^ 53
  /\ (e = - 1074 \/ 2 ^ 52 <= Zpos m).
Proof.
  unfold bounded, canonical_mantissa, fexp, emin, Float64.prec, Float64.emax.
  intros H. apply andb_true_iff in H as [H _].
  apply Z.eqb_eq in H.
  destruct (digits2_bounds m) as [Lo Hi].
  set (d := Zpos (digits2_pos m)) in *.
  assert (D : d <= 53) by lia.
  split; [lia|]. split.
  - apply Z.lt_le_trans with (1 := Hi).
    apply Z.pow_le_mono_r; lia.
  - destruct (Z.eq_dec e (- 1074)) as [E|E]; [now left|right].
    assert (d = 53) by lia.
    replace 52 with (d - 1) by lia. exact Lo.
Qed.

Lemma canonical_lt (m1 m2 : positive) (e1 e2 : Z) :
  bounded Float64.prec Float64.emax m1 e1 = true ->
  bounded Float64.prec Float64.emax m2 e2 = true ->
  e1 < e2 ->
  Zpos m1 * 2 ^ (e1 + 1074) < Zpos m2 * 2 ^ (e2 + 1074).
Proof.
  intros B1 B2 Hlt.
  destruct (canonical_shape _ _ B1) as (E1 & M1 & _).
  destruct (canonical_shape _ _ B2) as (E2 & _ & [K|M2]); [lia|].
  replace (e2 + 1074) with ((e1 + 1074) + (e2 - e1)) by lia.
  rewrite (Z.pow_add_r 2 (e1 + 1074) (e2 - e1)) by lia.
  assert (A : 0 < 2 ^ (e1 + 1074)) by (apply Z.pow_pos_nonneg; lia).
  assert (P : 2 ^ 1 <= 2 ^ (e2 - e1)) by (apply Z.pow_le_mono_r; lia).
  change (2 ^ 1) with 2 in P.
  change (2 ^ 53) with (2 ^ 52 * 2) in M1.
  set (a := 2 ^ (e1 + 1074)) in *.
  set (p := 2 ^ (e2 - e1)) in *.
  apply Z.lt_le_trans with (2 ^ 52 * 2 * a).
  - apply Z.mul_lt_mono_pos_r; assumption.
  - rewrite <- Z.mul_assoc.
    apply Z.mul_le_mono_nonneg; [lia | exact M2 | lia |].
    rewrite (Z.mul_comm 2 a).
    apply Z.mul_le_mono_nonneg_l; lia.
Qed.

Lemma compare_cont_Eq (m1 m2 : positive) :
  Pos.compare_cont Eq m1 m2 = (Zpos m1 ?= Zpos m2).
Proof. reflexivity. Qed.

(** On well-formed finite floats [<=] is the order of the numbers. *)
Lemma leb_scaled (x y : float) :
  well_formed x = true -> well_formed y = true ->
  Float64.is_finite x = true -> Float64.is_finite y = true ->
  (Float64.leb x y = true <-> Float64.scaled x <= Float64.scaled y).
Proof.
  intros Wx Wy Fx Fy.
  destruct x as [sx| |  |sx mx ex]; try discriminate;
    destruct y as [sy| | |sy my ey]; try discriminate.
  - simpl. split; [lia|reflexivity].
  - unfold Float64.leb, SFleb, SFcompare, Float64.scaled.
    assert (0 < Zpos my * 2 ^ (ey + 1074)).
    { apply Z.mul_pos_pos; [lia|].
      apply Z.pow_pos_nonneg; [lia|].
      destruct (canonical_shape _ _ Wy); lia. }
    destruct sy; split; intros K; try reflexivity; try discriminate; lia.
  - unfold Float64.leb, SFleb, SFcompare, Float64.scaled.
    assert (0 < Zpos mx * 2 ^ (ex + 1074)).
    { apply Z.mul_pos_pos; [lia|].
      apply Z.pow_pos_nonneg; [lia|].
      destruct (canonical_shape _ _ Wx); lia. }
    destruct sx; split; intros K; try reflexivity; try discriminate; lia.
  - unfold well_formed, valid_binary in Wx, Wy.
    assert (Px : 0 < Zpos mx * 2 ^ (ex + 1074)).
    { apply Z.mul_pos_pos; [lia|].
      apply Z.pow_pos_nonneg; [lia|].
      destruct (canonical_shape _ _ Wx); lia. }
    assert (Py : 0 < Zpos my * 2 ^ (ey + 1074)).
    { apply Z.mul_pos_pos; [lia|].
      apply Z.pow_pos_nonneg; [lia|].
      destruct (canonical_shape _ _ Wy); lia. }
    unfold Float64.leb, SFleb, SFcompare, Float64.scaled.
    destruct sx, sy.
    + destruct (Z.compare_spec ex ey) as [E|E|E].
      * subst ey. rewrite compare_cont_Eq.
        assert (A : 0 < 2 ^ (ex + 1074)) by
            (apply Z.pow_pos_nonneg; [lia|];
             destruct (canonical_shape _ _ Wx); lia).
        rewrite <- ?Z.opp_le_mono, <- Z.mul_le_mono_pos_r by exact A.
        destruct (Z.compare_spec (Zpos mx) (Zpos my)) as [C|C|C];
          cbn [CompOpp];
          split; intros K; try reflexivity; try discriminate; lia.
      * assert (L := canonical_lt _ _ _ _ Wx Wy E).
        split; intros K; [discriminate|lia].
      * assert (L := canonical_lt _ _ _ _ Wy Wx E).
        split; intros K; [lia|reflexivity].
    + split; intros K; [lia|reflexivity].
    + split; intros K; [discriminate|lia].
    + destruct (Z.compare_spec ex ey) as [E|E|E].
      * subst ey. rewrite compare_cont_Eq.
        assert (A : 0 < 2 ^ (ex + 1074)) by
            (apply Z.pow_pos_nonneg; [lia|];
             destruct (canonical_shape _ _ Wx); lia).
        rewrite <- ?Z.opp_le_mono, <- Z.mul_le_mono_pos_r by exact A.
        destruct (Z.compare_spec (Zpos mx) (Zpos my)) as [C|C|C];
          cbn [CompOpp];
          split; intros K; try reflexivity; try discriminate; lia.
      * assert (L := canonical_lt _ _ _ _ Wx Wy E).
        split; intros K; [lia|reflexivity].
      * assert (L := canonical_lt _ _ _ _ Wy Wx E).
        split; intros K; [discriminate|lia].
Qed.

End Comparison.

(** ** Rounding gives well-formed floats *)

Section Rounding.

Local Open Scope Z_scope.

Lemma fexp_max (k : Z) :
  fexp Float64.prec Float64.emax k = Z.max (k - 53) (- 1074).
Proof. reflexivity. Qed.

Lemma Zdigits2_bounds (m : Z) :
  0 < m -> 2 ^ (Zdigits2 m - 1) <= m < 2 ^ Zdigits2 m.
Proof.
  destruct m as [|p|p]; try lia. intros _. apply digits2_bounds.
Qed.

Lemma Zdigits2_nonneg (m : Z) : 0 <= Zdigits2 m.
Proof. destruct m; simpl; lia. Qed.

Lemma Zdigits2_unique (m k : Z) :
  0 < m -> 2 ^ (k - 1) <= m < 2 ^ k -> Zdigits2 m = k.
Proof.
  intros M [Lo Hi].
  destruct (Zdigits2_bounds m M) as [Lo' Hi'].
  assert (D : 0 < Zdigits2 m) by (destruct m; simpl; lia).
  assert (K : 0 < k).
  { destruct (Z.le_gt_cases k 0) as [N|N]; [|exact N].
    exfalso. destruct (Z.eq_dec k 0) as [->|N0]; [simpl in Hi; lia|].
    rewrite Z.pow_neg_r in Hi by lia. lia. }
  assert (A : Zdigits2 m - 1 < k).
  { apply (Z.pow_lt_mono_r_iff 2); lia. }
  assert (B : k - 1 < Zdigits2 m).
  { apply (Z.pow_lt_mono_r_iff 2); lia. }
  lia.
Qed.

Lemma Zdigits2_mono (a b : Z) : 0 <= a <= b -> Zdigits2 a <= Zdigits2 b.
Proof.
  intros [A B].
  destruct (Z.eq_dec a 0) as [->|N]; [apply Zdigits2_nonneg|].
  destruct (Zdigits2_bounds a) as [Lo _]; [lia|].
  destruct (Zdigits2_bounds b) as [_ Hi]; [lia|].
  assert (Zdigits2 a - 1 < Zdigits2 b).
  { apply (Z.pow_lt_mono_r_iff 2); [lia|apply Zdigits2_nonneg|lia]. }
  lia.
Qed.

Lemma shr_1_m (r : shr_record) :
  0 <= shr_m r -> shr_m (shr_1 r) = shr_m r / 2.
Proof.
  destruct r as [m r s]. simpl. intros M.
  rewrite <- Z.div2_div.
  destruct m as [|[p|p|]|]; try reflexivity. lia.
Qed.

Lemma pow2_xO (p : positive) : 2 ^ Zpos p~0 = 2 ^ Zpos p * 2 ^ Zpos p.
Proof.
  rewrite <- Z.pow_add_r by lia. f_equal. lia.
Qed.

Lemma pow2_xI (p : positive) : 2 ^ Zpos p~1 = 2 * (2 ^ Zpos p * 2 ^ Zpos p).
Proof.
  rewrite <- Z.pow_add_r by lia.
  rewrite <- Z.pow_succ_r by lia. f_equal. lia.
Qed.

Lemma iter_shr_m (p : positive) (r : shr_record) :
  0 <= shr_m r ->
  shr_m (iter_pos shr_1 p r) = shr_m r / 2 ^ Zpos p.
Proof.
  revert r. induction p as [p IH|p IH|]; intros r M; simpl iter_pos.
  - assert (Q : 0 < 2 ^ Zpos p) by (apply Z.pow_pos_nonneg; lia).
    assert (M1 : 0 <= shr_m (shr_1 r)).
    { rewrite shr_1_m by exact M. apply Z.div_pos; lia. }
    assert (M2 : 0 <= shr_m (iter_pos shr_1 p (shr_1 r))).
    { rewrite IH by exact M1. apply Z.div_pos; assumption. }
    rewrite IH by exact M2. rewrite IH by exact M1.
    rewrite shr_1_m by exact M.
    rewrite !Z.div_div by lia.
    now rewrite pow2_xI.
  - assert (Q : 0 < 2 ^ Zpos p) by (apply Z.pow_pos_nonneg; lia).
    assert (M2 : 0 <= shr_m (iter_pos shr_1 p r)).
    { rewrite IH by exact M. apply Z.div_pos; assumption. }
    rewrite IH by exact M2. rewrite IH by exact M.
    rewrite Z.div_div by lia.
    now rewrite pow2_xO.
  - rewrite shr_1_m by exact M. reflexivity.
Qed.

Lemma shr_record_of_loc_m (m : Z) (l : location) :
  shr_m (shr_record_of_loc m l) = m.
Proof. destruct l as [|[| |]]; reflexivity. Qed.

(** Shifting to the exponent that [fexp] asks for gives a mantissa and an
    exponent in canonical position. *)
Lemma shr_fexp_canonical (m e : Z) (l : location) :
  0 <= m ->
  e <= fexp Float64.prec Float64.emax (Zdigits2 m + e) ->
  0 <= shr_m (fst (shr_fexp Float64.prec Float64.emax m e l))
  /\ snd (shr_fexp Float64.prec Float64.emax m e l)
     = fexp Float64.prec Float64.emax
            (Zdigits2 (shr_m (fst (shr_fexp Float64.prec Float64.emax m e l)))
             + snd (shr_fexp Float64.prec Float64.emax m e l)).
Proof.
  intros M P.
  unfold shr_fexp, shr.
  rewrite fexp_max in P.
  rewrite !fexp_max.
  set (d := Zdigits2 m) in *.
  assert (D : 0 <= d) by apply Zdigits2_nonneg.
  destruct (Z.max (d + e - 53) (- 1074) - e) as [|p|p] eqn:N; cbn [fst snd].
  - rewrite shr_record_of_loc_m. fold d. split; [exact M|lia].
  - rewrite iter_shr_m by (rewrite shr_record_of_loc_m; exact M).
    rewrite shr_record_of_loc_m.
    assert (Q : 0 < 2 ^ Zpos p) by (apply Z.pow_pos_nonneg; lia).
    split; [apply Z.div_pos; assumption|].
    destruct (Z.eq_dec m 0) as [->|M0].
    { rewrite Z.div_0_l by lia. simpl Zdigits2.
      change (Zdigits2 0) with 0 in d. subst d. lia. }
    destruct (Zdigits2_bounds m) as [Lo Hi]; [lia|]. fold d in Lo, Hi.
    destruct (Z.lt_ge_cases (Zpos p) d) as [C|C].
    + rewrite (Zdigits2_unique (m / 2 ^ Zpos p) (d - Zpos p)).
      * lia.
      * apply Z.lt_le_trans with (2 ^ (d - Zpos p - 1)).
        { apply Z.pow_pos_nonneg; lia. }
        apply Z.div_le_lower_bound; [exact Q|].
        rewrite <- Z.pow_add_r by lia.
        replace (Zpos p + (d - Zpos p - 1)) with (d - 1) by lia. exact Lo.
      * split.
        { apply Z.div_le_lower_bound; [exact Q|].
          rewrite <- Z.pow_add_r by lia.
          replace (Zpos p + (d - Zpos p - 1)) with (d - 1) by lia. exact Lo. }
        { apply Z.div_lt_upper_bound; [exact Q|].
          rewrite <- Z.pow_add_r by lia.
          replace (Zpos p + (d - Zpos p)) with d by lia. exact Hi. }
    + rewrite Z.div_small.
      * simpl Zdigits2. lia.
      * split; [lia|]. apply Z.lt_le_trans with (1 := Hi).
        apply Z.pow_le_mono_r; lia.
  - lia.
Qed.

Lemma round_nearest_even_range (m : Z) (l : location) :
  m <= round_nearest_even m l <= m + 1.
Proof.
  destruct l as [|[| |]]; simpl; try lia.
  destruct (Z.even m); lia.
Qed.

Lemma binary_round_aux_valid (sx : bool) (mx ex : Z) (lx : location) :
  0 <= mx ->
  ex <= fexp Float64.prec Float64.emax (Zdigits2 mx + ex) ->
  well_formed (binary_round_aux Float64.prec Float64.emax sx mx ex lx) = true.
Proof.
  intros M P.
  unfold binary_round_aux.
  destruct (shr_fexp_canonical mx ex lx M P) as [M1 E1].
  destruct (shr_fexp Float64.prec Float64.emax mx ex lx) as [mrs1 e1].
  cbn [fst snd] in M1, E1.
  set (m' := round_nearest_even (shr_m mrs1) (loc_of_shr_record mrs1)).
  assert (R := round_nearest_even_range (shr_m mrs1) (loc_of_shr_record mrs1)).
  fold m' in R.
  assert (P2 : e1 <= fexp Float64.prec Float64.emax (Zdigits2 m' + e1)).
  { assert (Zdigits2 (shr_m mrs1) <= Zdigits2 m')
      by (apply Zdigits2_mono; lia).
    rewrite fexp_max in E1 |- *. lia. }
  destruct (shr_fexp_canonical m' e1 loc_Exact) as [M2 E2]; [lia|exact P2|].
  destruct (shr_fexp Float64.prec Float64.emax m' e1 loc_Exact) as [mrs2 e2].
  cbn [fst snd] in M2, E2.
  destruct (shr_m mrs2) as [|m|m] eqn:S2; try reflexivity.
  destruct (e2 <=? Float64.emax - Float64.prec) eqn:B; [|reflexivity].
  unfold well_formed, valid_binary, bounded, canonical_mantissa.
  rewrite B, andb_true_r.
  apply Z.eqb_eq. simpl Zdigits2 in E2. now symmetry.
Qed.

Lemma of_ratio_valid (neg : bool) (num den : Z) :
  0 <= num -> 0 < den ->
  well_formed (Float64.of_ratio neg num den) = true.
Proof.
  intros N Dn.
  unfold Float64.of_ratio.
  destruct num as [|n|n]; [reflexivity| |lia].
  unfold SFdiv_core_binary.
  set (e' := IntDef.Z.min _ _).
  set (d1 := Zdigits2 (Zpos n)).
  set (d2 := Zdigits2 den).
  assert (E' : e' = Z.min (Z.max (d1 - d2 - 53) (- 1074)) 0).
  { unfold e'. rewrite fexp_max, !Z.add_0_r. reflexivity. }
  clearbody e'.
  set (m' := match 0 - 0 - e' with
             | 0 => Zpos n
             | Zpos _ => IntDef.Z.shiftl (Zpos n) (0 - 0 - e')
             | Zneg _ => 0
             end).
  assert (Hm : m' = Zpos n * 2 ^ (- e')).
  { unfold m'. replace (0 - 0 - e') with (- e') by lia.
    destruct (- e') as [|p|p] eqn:Es; [simpl; lia| |lia].
    apply Z.shiftl_mul_pow2. lia. }
  clearbody m'.
  assert (Hq : fst (IntDef.Z.div_eucl m' den) = m' / den) by reflexivity.
  destruct (IntDef.Z.div_eucl m' den) as [q r]. cbn [fst] in Hq.
  assert (Ps : 0 < 2 ^ (- e')) by (apply Z.pow_pos_nonneg; lia).
  apply binary_round_aux_valid.
  - rewrite Hq. apply Z.div_pos; [rewrite Hm; lia|exact Dn].
  - rewrite fexp_max.
    destruct (Z.le_gt_cases e' (- 1074)) as [C|C]; [lia|].
    assert (C' : e' <= d1 - d2 - 53) by lia.
    assert (D1 : 0 < d1) by (unfold d1; simpl; lia).
    assert (D2 : 0 <= d2) by apply Zdigits2_nonneg.
    assert (Q : 2 ^ 52 <= q).
    { rewrite Hq. apply Z.div_le_lower_bound; [exact Dn|].
      destruct (Zdigits2_bounds (Zpos n)) as [Lo _]; [lia|]. fold d1 in Lo.
      destruct (Zdigits2_bounds den Dn) as [_ Hi]. fold d2 in Hi.
      rewrite Hm.
      apply Z.le_trans with (2 ^ d2 * 2 ^ 52).
      { apply Z.mul_le_mono_nonneg_r; [|lia].
        apply Z.pow_nonneg; lia. }
      apply Z.le_trans with (2 ^ (d1 - 1) * 2 ^ (- e')).
      { rewrite <- !Z.pow_add_r by lia.
        apply Z.pow_le_mono_r; lia. }
      apply Z.mul_le_mono_nonneg_r; lia. }
    assert (53 <= Zdigits2 q).
    { destruct (Zdigits2_bounds q) as [_ Hi].
      { apply Z.lt_le_trans with (2 := Q). reflexivity. }
      assert (52 < Zdigits2 q).
      { apply (Z.pow_lt_mono_r_iff 2); [lia|apply Zdigits2_nonneg|lia]. }
      lia. }
    lia.
Qed.


Lemma span_digits_digits (s : list ascii) :
  Forall (fun c => PyFloat.is_digit c = true) (fst (PyFloat.span_digits s)).
Proof.
  induction s as [|c s IH]; simpl; [constructor|].
  destruct (PyFloat.is_digit c) eqn:D; [|constructor].
  destruct (PyFloat.span_digits s) as [d r]. simpl in *.
  now constructor.
Qed.

Lemma digits_val_nonneg (ds : list ascii) :
  Forall (fun c => PyFloat.is_digit c = true) ds ->
  0 <= PyFloat.digits_val ds.
Proof.
  unfold PyFloat.digits_val.
  assert (G : forall acc, 0 <= acc ->
              Forall (fun c => PyFloat.is_digit c = true) ds ->
              0 <= fold_left (fun a c => 10 * a + PyFloat.digit_val c) ds acc).
  { induction ds as [|c ds IH]; intros acc A F; cbn [fold_left]; [exact A|].
    inversion F as [|? ? Dc F']; subst.
    apply IH; [|exact F'].
    unfold PyFloat.is_digit in Dc. apply andb_true_iff in Dc as [Dc _].
    apply Nat.leb_le in Dc.
    unfold PyFloat.digit_val. lia. }
  intros F. apply G; [lia|exact F].
Qed.

Lemma number_valid (neg : bool) (s : list ascii) (f : float) :
  PyFloat.number neg s = Some f -> well_formed f = true.
Proof.
  unfold PyFloat.number.
  assert (Fi := span_digits_digits s).
  destruct (PyFloat.span_digits s) as [ip r1]. cbn [fst] in Fi.
  assert (Ff : Forall (fun c => PyFloat.is_digit c = true)
                      (fst match r1 with
                           | "."%char :: r => PyFloat.span_digits r
                           | _ => ([], r1)
                           end)).
  { destruct r1 as [|c r]; [constructor|].
    destruct (Ascii.eqb_spec c "."%char) as [->|N].
    - apply span_digits_digits.
    - destruct c as [[] [] [] [] [] [] [] []]; try constructor.
      now contradiction N. }
  destruct (match r1 with
            | "."%char :: r => PyFloat.span_digits r
            | _ => ([], r1)
            end) as [fp r2]. cbn [fst] in Ff.
  assert (F : Forall (fun c => PyFloat.is_digit c = true) (ip ++ fp)%list)
    by (apply Forall_app; now split).
  destruct (ip ++ fp)%list as [|c ds]; [discriminate|].
  destruct (PyFloat.exponent r2) as [ex|]; [|discriminate].
  intros H. injection H as <-.
  assert (M := digits_val_nonneg _ F).
  destruct (0 <=? ex - Z.of_nat (List.length fp)) eqn:E.
  - apply of_ratio_valid; [|lia].
    apply Z.mul_nonneg_nonneg; [exact M|]. apply Z.pow_nonneg. lia.
  - apply of_ratio_valid; [exact M|].
    apply Z.pow_pos_nonneg; [lia|]. apply Z.leb_gt in E. lia.
Qed.

Lemma parse_valid (s : string) (f : float) :
  PyFloat.parse s = Some f -> well_formed f = true.
Proof.
  unfold PyFloat.parse.
  destruct (PyFloat.drop_underscores None _) as [cs|]; [|discriminate].
  destruct (PyFloat.take_sign cs) as [neg r].
  destruct (PyFloat.number neg r) as [g|] eqn:N.
  - intros H. injection H as <-. exact (number_valid _ _ _ N).
  - unfold PyFloat.inf_or_nan.
    destruct (_ || _)%bool; [intros H; injection H as <-; reflexivity|].
    destruct (String.eqb _ _); [|discriminate].
    intros H. injection H as <-. reflexivity.
Qed.

(** Every cleaned coordinate is a well-formed binary64 value. *)
Lemma coord_well_formed (val : Cell) : well_formed (coord val) = true.
Proof.
  unfold coord, clean_coord.
  destruct val as [s|]; [|reflexivity].
  unfold py_float.
  destruct (PyFloat.parse _) as [f|] eqn:P; [|reflexivity].
  exact (parse_valid _ _ P).
Qed.

End Rounding.

(** ** The number a float stands for *)

Section Numbers.

Lemma pos_pow_Z (k : positive) : Zpos (2 ^ k)%positive = (2 ^ Zpos k)%Z.
Proof. apply Pos2Z.inj_pow. Qed.

Lemma to_Q_scaled (x : float) :
  well_formed x = true ->
  (Float64.to_Q x == Float64.scaled x # (2 ^ 1074)%positive)%Q.
Proof.
  intros W.
  destruct x as [s| | |s m e]; try reflexivity.
  destruct (canonical_shape _ _ W) as (E & _ & _).
  assert (V : (match e with
               | Zneg k => Qmake (Zpos m) (2 ^ k)
               | _ => inject_Z (Zpos m * 2 ^ e)
               end
               == (Zpos m * 2 ^ (e + 1074))%Z # (2 ^ 1074)%positive)%Q).
  { unfold Qeq. destruct e as [|k|k]; cbn [Qnum Qden inject_Z];
      rewrite ?pos_pow_Z.
    - rewrite Z.add_0_l. change (2 ^ 0)%Z with 1%Z. ring.
    - rewrite (Z.pow_add_r 2 (Zpos k) 1074) by lia. ring.
    - replace (2 ^ 1074)%Z
        with (2 ^ (Zneg k + 1074) * 2 ^ Zpos k)%Z; [ring|].
      rewrite <- Z.pow_add_r by lia. f_equal. lia. }
  unfold Float64.to_Q, Float64.scaled.
  destruct s; [|exact V].
  rewrite V. reflexivity.
Qed.

Lemma Qle_scaled (x y : float) :
  well_formed x = true -> well_formed y = true ->
  ((Float64.to_Q x <= Float64.to_Q y)%Q
   <-> (Float64.scaled x <= Float64.scaled y)%Z).
Proof.
  intros Wx Wy.
  rewrite (to_Q_scaled x Wx), (to_Q_scaled y Wy).
  unfold Qle. cbn [Qnum Qden].
  symmetry. apply Z.mul_le_mono_pos_r. reflexivity.
Qed.

Lemma leb_Q (x y : float) :
  well_formed x = true -> well_formed y = true ->
  Float64.is_finite x = true -> Float64.is_finite y = true ->
  (Float64.leb x y = true <-> (Float64.to_Q x <= Float64.to_Q y)%Q).
Proof.
  intros Wx Wy Fx Fy.
  rewrite (Qle_scaled x y Wx Wy).
  now apply leb_scaled.
Qed.

Lemma of_Z_number (z : Z) :
  In z [-180; 180; -90; 90]%Z ->
  well_formed (Float64.of_Z z) = true
  /\ Float64.is_finite (Float64.of_Z z) = true
  /\ (Float64.to_Q (Float64.of_Z z) == inject_Z z)%Q.
Proof.
  intros [<- | [<- | [<- | [<- | []]]]]; repeat split.
Qed.

(** [between] on a well-formed float is membership of its number in the
    closed interval. *)
Lemma between_interval (lo hi : Z) (x : float) :
  In lo [-180; 180; -90; 90]%Z -> In hi [-180; 180; -90; 90]%Z ->
  well_formed x = true ->
  (Float64.geb x (Float64.of_Z lo) && Float64.leb x (Float64.of_Z hi) = true
   <-> Float64.is_finite x = true
       /\ (inject_Z lo <= Float64.to_Q x <= inject_Z hi)%Q).
Proof.
  intros Hlo Hhi W.
  destruct (of_Z_number lo Hlo) as (Wl & Fl & Ql).
  destruct (of_Z_number hi Hhi) as (Wh & Fh & Qh).
  destruct (Float64.is_finite x) eqn:F.
  - unfold Float64.geb.
    rewrite andb_true_iff, (leb_Q _ _ Wl W Fl F), (leb_Q _ _ W Wh F Fh).
    rewrite Ql, Qh. tauto.
  - split; [|intros [K _]; discriminate].
    intros K. exfalso.
    apply andb_true_iff in K as [K1 K2].
    unfold Float64.geb, Float64.leb in K1, K2.
    destruct x as [s|s| |s m e]; try discriminate F.
    + destruct s.
      * revert Fl K1.
        destruct (Float64.of_Z lo); intros Fl K1;
          try discriminate Fl; discriminate K1.
      * revert Fh K2.
        destruct (Float64.of_Z hi); intros Fh K2;
          try discriminate Fh; discriminate K2.
    + revert K1. destruct (Float64.of_Z lo); discriminate.
Qed.

End Numbers.


(** The range rule on one record, in terms of the numbers. *)
Lemma range_rule (df : DataFrame) (x_col y_col : nat) (r : nat * Row) :
  In r df ->
  is_zero (coord (cell x_col r)) (coord (cell y_col r)) = false ->
  (assigned df x_col y_col r Valid
   <-> (Float64.is_finite (coord (cell x_col r)) = true
        /\ (-180 <= Float64.to_Q (coord (cell x_col r)) <= 180)%Q)
       /\ (Float64.is_finite (coord (cell y_col r)) = true
           /\ (-90 <= Float64.to_Q (coord (cell y_col r)) <= 90)%Q))
  /\ (assigned df x_col y_col r Invalid
      <-> ~ assigned df x_col y_col r Valid).
Proof.
  intros Hr Z.
  assert (Wx := coord_well_formed (cell x_col r)).
  assert (Wy := coord_well_formed (cell y_col r)).
  set (x := coord (cell x_col r)) in *.
  set (y := coord (cell y_col r)) in *.
  assert (V : assigned df x_col y_col r Valid <-> in_range x y = true).
  { rewrite assigned_Valid. unfold row_is_valid. fold x y.
    split.
    - intros [_ H]. unfold is_valid in H.
      do 3 (apply andb_true_iff in H as [H _]). exact H.
    - intros H. split; [exact Hr|].
      destruct (in_range_not_nan x y H) as [Nx Ny].
      unfold is_valid. now rewrite H, Z, Nx, Ny. }
  split.
  - rewrite V. unfold in_range. rewrite andb_true_iff.
    rewrite (between_interval (-180) 180 x), (between_interval (-90) 90 y);
      simpl; auto 6.
    reflexivity.
  - rewrite assigned_Invalid, V. unfold row_is_invalid, is_invalid.
    fold x y. rewrite Z, orb_false_r.
    split.
    + intros [_ H] K. apply negb_true_iff in H.
      unfold is_valid in H. rewrite K, Z in H.
      destruct (in_range_not_nan x y K) as [Nx Ny].
      rewrite Nx, Ny in H. discriminate.
    + intros H. split; [exact Hr|].
      apply negb_true_iff. unfold is_valid.
      destruct (in_range x y); [now contradiction H|reflexivity].
Qed.

Lemma edges_180_90 :
  assigned Scenario.edges 0 1 (0, [Some "180"; Some "90"]) Valid.
Proof.
  destruct (range_rule Scenario.edges 0 1 (0, [Some "180"; Some "90"]))
    as [V _]; try (vm_compute; reflexivity).
  - left. reflexivity.
  - apply (proj2 V). repeat split; vm_compute; discriminate.
Qed.

Lemma edges_minus_180_90 :
  assigned Scenario.edges 0 1 (1, [Some "-180"; Some "-90"]) Valid.
Proof.
  destruct (range_rule Scenario.edges 0 1 (1, [Some "-180"; Some "-90"]))
    as [V _]; try (vm_compute; reflexivity).
  - right. left. reflexivity.
  - apply (proj2 V). repeat split; vm_compute; discriminate.
Qed.

Lemma edges_beyond_180 :
  assigned Scenario.edges 0 1 (2, [Some "180.0001"; Some "0"]) Invalid.
Proof.
  destruct (range_rule Scenario.edges 0 1 (2, [Some "180.0001"; Some "0"]))
    as [V I]; try (vm_compute; reflexivity).
  - right. right. left. reflexivity.
  - apply (proj2 I). intros K.
    destruct (proj1 V K) as ((_ & _ & K') & _).
    vm_compute in K'. apply K'. reflexivity.
Qed.

(** C4.  For a record whose cleaned coordinates are not both zero: it is
    put in the valid frame exactly when its first coordinate is a finite
    number of the closed interval from -180 to 180 and its second one a
    finite number of the closed interval from -90 to 90, both ends
    included; otherwise it is put in the invalid frame.
    The records (180, 90) and (-180, -90) are valid, (180.0001, 0) is
    invalid. *)
Theorem valid_iff_in_range :
  (forall (df : DataFrame) (x_col y_col : nat) (r : nat * Row),
      In r df ->
      is_zero (coord (cell x_col r)) (coord (cell y_col r)) = false ->
      (assigned df x_col y_col r Valid
       <-> (Float64.is_finite (coord (cell x_col r)) = true
            /\ (-180 <= Float64.to_Q (coord (cell x_col r)) <= 180)%Q)
           /\ (Float64.is_finite (coord (cell y_col r)) = true
               /\ (-90 <= Float64.to_Q (coord (cell y_col r)) <= 90)%Q))
      /\ (assigned df x_col y_col r Invalid
          <-> ~ assigned df x_col y_col r Valid))
  /\ assigned Scenario.edges 0 1 (0, [Some "180"; Some "90"]) Valid
  /\ assigned Scenario.edges 0 1 (1, [Some "-180"; Some "-90"]) Valid
  /\ assigned Scenario.edges 0 1 (2, [Some "180.0001"; Some "0"]) Invalid.
Proof.
  split; [exact range_rule|].
  split; [exact edges_180_90|].
  split; [exact edges_minus_180_90|exact edges_beyond_180].
Qed.

Lemma valid_iff_in_range_witness :
  assigned Scenario.df 0 1 Scenario.record3 Valid
  <-> (Float64.is_finite (coord (cell 0 Scenario.record3)) = true
       /\ (-180 <= Float64.to_Q (coord (cell 0 Scenario.record3)) <= 180)%Q)
      /\ (Float64.is_finite (coord (cell 1 Scenario.record3)) = true
          /\ (-90 <= Float64.to_Q (coord (cell 1 Scenario.record3)) <= 90)%Q).
Proof.
  refine (proj1 (proj1 valid_iff_in_range Scenario.df 0 1
                       Scenario.record3 _ _)).
  - right. right. right. left. reflexivity.
  - vm_compute. reflexivity.
Defined.

(** * Further properties of the script *)

(** ** Shared facts *)

Lemma frames_lengths (df : DataFrame) (x_col y_col : nat) :
  (List.length (df_valid df x_col y_col)
   + List.length (df_zero df x_col y_col)
   + List.length (df_invalid df x_col y_col) = List.length df)%nat.
Proof.
  assert (P : Permutation
                (filter (row_is_valid x_col y_col) df
                 ++ filter (row_is_zero x_col y_col) df
                 ++ filter (row_is_invalid x_col y_col) df)%list df).
  { apply three_filters_permutation. intros r _. apply one_of_three. }
  apply Permutation_length in P.
  rewrite !length_app in P.
  rewrite df_valid_filter, df_zero_filter, df_invalid_filter, length_map.
  lia.
Qed.

Lemma in_df_valid (df : DataFrame) (x_col y_col : nat) (c : CleanRow) :
  In c (df_valid df x_col y_col) ->
  In (origin c) df
  /\ c = cleaned x_col y_col (origin c)
  /\ is_valid (lon c) (lat c) = true.
Proof.
  rewrite df_valid_filter. intros H.
  apply in_map_iff in H as (r & <- & H).
  apply filter_In in H as [H V].
  repeat split; assumption.
Qed.

Lemma in_range_finite (x y : float) :
  in_range x y = true ->
  Float64.is_finite x = true /\ Float64.is_finite y = true.
Proof.
  unfold in_range, Float64.geb, Float64.leb. intros H.
  apply andb_true_iff in H as [Hx Hy].
  apply andb_true_iff in Hx as [Hx1 Hx2].
  apply andb_true_iff in Hy as [Hy1 Hy2].
  split.
  - destruct x as [s|s| |s m e]; try reflexivity.
    + destruct s; [vm_compute in Hx1|vm_compute in Hx2]; discriminate.
    + vm_compute in Hx1. discriminate.
  - destruct y as [s|s| |s m e]; try reflexivity.
    + destruct s; [vm_compute in Hy1|vm_compute in Hy2]; discriminate.
    + vm_compute in Hy1. discriminate.
Qed.

Lemma is_valid_parts (x y : float) :
  is_valid x y = true -> in_range x y = true /\ is_zero x y = false.
Proof.
  intros V. split; [|exact (valid_not_zero x y V)].
  unfold is_valid in V.
  do 3 (apply andb_true_iff in V as [V _]). exact V.
Qed.

(** ** The analysis and the run of the script *)

(** X1.  The analysis raises exactly when some record is valid and merging
    the boundary raises; the exception is that of the merge.  Nothing else
    in the body of the button can raise. *)
Theorem analysis_raises_iff {L : Libraries}
        (gdf_polygon : GeoDataFrame) (df : DataFrame) (x_col y_col : nat)
        (e : exn) :
  run_analysis gdf_polygon df x_col y_col = inl e
  <-> df_valid df x_col y_col <> [] /\ unary_union gdf_polygon = inl e.
Proof.
  rewrite run_analysis_eq.
  destruct (df_valid df x_col y_col) as [|c l]; simpl.
  - split; [discriminate|]. intros [N _]. now contradiction N.
  - destruct (unary_union gdf_polygon) as [e'|pu].
    + split.
      * intros H. injection H as ->. split; [discriminate|reflexivity].
      * intros [_ H]. injection H as ->. reflexivity.
    + split; [discriminate|]. intros [_ H]. discriminate.
Qed.

(** X2.  A bundle that the analysis stores always has a point in it, its
    row count is the sum of the sizes of its three frames, it keeps the two
    chosen columns, and every point in it has finite coordinates that pass
    the range test and are not both zero. *)
Theorem stored_bundle_invariants {L : Libraries}
        (gdf_polygon : GeoDataFrame) (df : DataFrame) (x_col y_col : nat)
        (pts : list PointRow) (inv zer : DataFrame) (n xc yc : nat) :
  run_analysis gdf_polygon df x_col y_col = inr (Bundle pts inv zer n xc yc) ->
  pts <> []
  /\ (n = List.length pts + List.length zer + List.length inv)%nat
  /\ xc = x_col /\ yc = y_col
  /\ forall p, In p pts ->
       geometry p = (lon (point_row p), lat (point_row p))
       /\ Float64.is_finite (fst (geometry p)) = true
       /\ Float64.is_finite (snd (geometry p)) = true
       /\ in_range (fst (geometry p)) (snd (geometry p)) = true
       /\ is_zero (fst (geometry p)) (snd (geometry p)) = false.
Proof.
  intros R. rewrite run_analysis_eq in R.
  destruct (is_empty (df_valid df x_col y_col)) eqn:V; [discriminate|].
  destruct (unary_union gdf_polygon) as [e|pu]; [discriminate|].
  injection R as <- <- <- <- <- <-.
  split.
  { destruct (df_valid df x_col y_col); discriminate. }
  split.
  { rewrite length_map. symmetry. apply frames_lengths. }
  do 2 (split; [reflexivity|]).
  intros p Hp.
  apply in_map_iff in Hp as (c' & <- & Hc).
  destruct (in_df_valid _ _ _ _ Hc) as (_ & _ & Hv).
  destruct (is_valid_parts _ _ Hv) as [Hr Hz].
  destruct (in_range_finite _ _ Hr) as [Fx Fy].
  unfold tag; cbn [geometry fst snd].
  repeat split; assumption.
Qed.

Lemma stored_bundle_invariants_witness :
  [Scenario.point_of Scenario.row3 Outside;
   Scenario.point_of Scenario.row4 Inside] <> []
  /\ (5 = 2 + 1 + 2)%nat.
Proof.
  destruct (stored_bundle_invariants (L := OnePolygon.library)
              (Some Scenario.square) Scenario.df 0 1
              [Scenario.point_of Scenario.row3 Outside;
               Scenario.point_of Scenario.row4 Inside]
              [(1, [Some "abc"; Some "abc"]); (2, [Some "200"; Some "0"])]
              [(0, [Some "0"; Some "0"])] 5 0 1)
    as (N & S & _).
  - vm_compute. reflexivity.
  - split; [exact N|exact S].
Defined.

(** X3.  A run is stopped in two cases only, both files being there: the
    boundary file fails to load, and its error is shown; or the boundary
    loads, the table fails to load, and the error of the table is shown.
    An exception of the analysis never stops the run this way. *)
Theorem stopped_iff_load_fails {L : Libraries}
        (geojson_file csv_file : option UploadedFile) (sep : string)
        (x_col y_col : nat) (run_clicked : bool) (results : option Results)
        (shown : list string) :
  script geojson_file csv_file sep x_col y_col run_clicked results
  = Stopped shown
  <-> exists g c,
        geojson_file = Some g /\ csv_file = Some c
        /\ ((exists e, load_geojson g = inl e
                       /\ shown = ["Error reading GeoJSON: " ++ exn_str e])
            \/ (exists gdf e, load_geojson g = inr gdf
                              /\ load_csv c sep = inl e
                              /\ shown = ["Error reading CSV: " ++ exn_str e])).
Proof.
  unfold script. split.
  - destruct geojson_file as [g|]; [|discriminate].
    destruct csv_file as [c|]; [|discriminate].
    intros H. exists g, c. do 2 (split; [reflexivity|]).
    destruct (load_geojson g) as [e|gdf].
    + left. exists e. split; [reflexivity|]. now injection H as <-.
    + right. destruct (load_csv c sep) as [e|df].
      * exists gdf, e. do 2 (split; [reflexivity|]). now injection H as <-.
      * destruct run_clicked; [|discriminate].
        destruct (run_analysis gdf df x_col y_col); discriminate.
  - intros (g & c & -> & -> & [(e & E & ->) | (gdf & e & E1 & E2 & ->)]).
    + now rewrite E.
    + now rewrite E1, E2.
Qed.

(** X4.  When lines 41-126 end without [st.stop()] and without an
    exception, the stored results are as they were if the button was not
    pressed or a file is missing; they differ from before only if the button
    was pressed, both files loaded and the analysis returned, and they are
    then what the analysis returned. *)
Theorem results_change_only_on_click {L : Libraries}
        (geojson_file csv_file : option UploadedFile) (sep : string)
        (x_col y_col : nat) (run_clicked : bool)
        (results results' : option Results) :
  processing geojson_file csv_file sep x_col y_col run_clicked results
  = Reached results' ->
  (run_clicked = false \/ geojson_file = None \/ csv_file = None
   -> results' = results)
  /\ (results' = results
      \/ exists g c gdf df r,
           run_clicked = true
           /\ geojson_file = Some g /\ csv_file = Some c
           /\ load_geojson g = inr gdf /\ load_csv c sep = inr df
           /\ run_analysis gdf df x_col y_col = inr r
           /\ results' = Some r).
Proof.
  unfold processing. intros H.
  destruct geojson_file as [g|];
    [|injection H as <-; split; [reflexivity|now left]].
  destruct csv_file as [c|];
    [|injection H as <-; split; [reflexivity|now left]].
  destruct (load_geojson g) as [e|gdf] eqn:G; [discriminate|].
  destruct (load_csv c sep) as [e|df] eqn:C; [discriminate|].
  destruct run_clicked.
  - destruct (run_analysis gdf df x_col y_col) as [e|r] eqn:R; [discriminate|].
    injection H as <-. split.
    + intros [K | [K | K]]; discriminate.
    + right. exists g, c, gdf, df, r. repeat split; assumption.
  - injection H as <-. split; [reflexivity|now left].
Qed.

Lemma results_change_only_on_click_witness :
  (true = false \/ Some (OnePolygon.BoundaryFile (Some Scenario.square)) = None
   \/ Some (OnePolygon.TableFile Scenario.rows) = None
   -> Some Scenario.computed = None)
  /\ (Some Scenario.computed = None
      \/ exists g c gdf df r,
           true = true
           /\ Some (OnePolygon.BoundaryFile (Some Scenario.square)) = Some g
           /\ Some (OnePolygon.TableFile Scenario.rows) = Some c
           /\ load_geojson (L := OnePolygon.library) g = inr gdf
           /\ load_csv (L := OnePolygon.library) c "," = inr df
           /\ run_analysis (L := OnePolygon.library) gdf df 0 1 = inr r
           /\ Some Scenario.computed = Some r).
Proof.
  apply (results_change_only_on_click (L := OnePolygon.library)
           (Some (OnePolygon.BoundaryFile (Some Scenario.square)))
           (Some (OnePolygon.TableFile Scenario.rows)) "," 0 1 true None
           (Some Scenario.computed)).
  vm_compute. reflexivity.
Defined.

(** ** What is drawn from a stored bundle *)

(** X5.  For the results that the analysis returns: without a bundle there
    is no summary and no record was valid; with a bundle, "Total Rows" is
    the number of rows of the table and the sum of "Valid Rows", "Zero (0,0)
    Rows" and "Invalid Rows", there is at least one valid row, and "Outside
    Boundary" is at most "Valid Rows" and is the number of rows of the table
    of outside points. *)
Theorem summary_adds_up {L : Libraries}
        (gdf_polygon : GeoDataFrame) (df : DataFrame) (x_col y_col : nat)
        (res : Results) :
  run_analysis gdf_polygon df x_col y_col = inr res ->
  match res with
  | NoData _ => summary res = None /\ df_valid df x_col y_col = []
  | Bundle pts _ _ _ _ _ =>
    exists s, summary res = Some s
      /\ total_rows s = List.length df
      /\ (total_rows s = valid_rows s + zero_rows s + invalid_rows s)%nat
      /\ (1 <= valid_rows s)%nat
      /\ (outside_boundary s <= valid_rows s)%nat
      /\ outside_boundary s = List.length (outside_points pts)
  end.
Proof.
  intros R. rewrite run_analysis_eq in R.
  destruct (is_empty (df_valid df x_col y_col)) eqn:V.
  - injection R as <-. split; [reflexivity|].
    destruct (df_valid df x_col y_col); [reflexivity|discriminate].
  - destruct (unary_union gdf_polygon) as [e|pu]; [discriminate|].
    injection R as <-.
    eexists. split; [reflexivity|]. cbn [total_rows valid_rows zero_rows
                                         invalid_rows outside_boundary].
    split; [reflexivity|].
    split.
    { rewrite length_map. symmetry. apply frames_lengths. }
    split.
    { rewrite length_map.
      destruct (df_valid df x_col y_col); [discriminate|simpl; lia]. }
    split; [apply filter_length_le|].
    unfold outside_points. now rewrite length_map.
Qed.

Lemma summary_adds_up_witness :
  exists s, summary Scenario.computed = Some s
    /\ total_rows s = List.length Scenario.df
    /\ (total_rows s = valid_rows s + zero_rows s + invalid_rows s)%nat
    /\ (1 <= valid_rows s)%nat
    /\ (outside_boundary s <= valid_rows s)%nat
    /\ outside_boundary s
       = List.length (outside_points
                        [Scenario.point_of Scenario.row3 Outside;
                         Scenario.point_of Scenario.row4 Inside]).
Proof.
  apply (summary_adds_up (L := OnePolygon.library) (Some Scenario.square)
                         Scenario.df 0 1 Scenario.computed).
  vm_compute. reflexivity.
Defined.

(** X6.  Fewer than 2000 markers are drawn, whatever the number of points.
    Below 2000 points every point has its marker, in order, at (latitude,
    longitude), green exactly when the status is [Inside]; from 2000 points
    on, one grey marker at the centre stands for all of them. *)
Theorem markers_are_capped (center : float * float) (pts : list PointRow) :
  (List.length (markers center pts) < 2000)%nat
  /\ ((List.length pts < 2000)%nat ->
      List.length (markers center pts) = List.length pts
      /\ forall i p, nth_error pts i = Some p ->
           exists m, nth_error (markers center pts) i = Some m
                     /\ marker_at m = (lat (point_row p), lon (point_row p))
                     /\ (color m = "#2ecc71" <-> location_status p = Inside)
                     /\ (color m = "#e74c3c" <-> location_status p = Outside))
  /\ ((2000 <= List.length pts)%nat ->
      markers center pts = [mkMarker center 1 "gray" None]).
Proof.
  unfold markers.
  destruct (Nat.ltb_spec (List.length pts) 2000) as [Lt|Ge].
  - split; [now rewrite length_map|].
    split; [|lia].
    intros _. split; [apply length_map|].
    intros i p Hp.
    eexists. split; [rewrite nth_error_map, Hp; reflexivity|].
    cbn [marker_at color].
    split; [reflexivity|].
    destruct (location_status p); split; split; intros K;
      try reflexivity; discriminate.
  - split; [simpl; lia|].
    split; [lia|reflexivity].
Qed.

(** X7.  With at least one column in the table the two preselected column
    positions exist; they are the same column exactly when the table has a
    single column. *)
Theorem default_columns_exist (columns : list string) :
  columns <> [] ->
  (default_x_col columns < List.length columns)%nat
  /\ (default_y_col columns < List.length columns)%nat
  /\ (default_x_col columns = default_y_col columns
      <-> List.length columns = 1%nat).
Proof.
  intros N. unfold default_x_col, default_y_col.
  destruct columns as [|a [|b l]]; [contradiction| |]; simpl.
  - repeat split; lia.
  - repeat split; try lia; discriminate.
Qed.

Lemma default_columns_exist_witness :
  (default_x_col ["lon"; "lat"; "name"] < 3)%nat
  /\ (default_y_col ["lon"; "lat"; "name"] < 3)%nat
  /\ (default_x_col ["lon"; "lat"; "name"] = default_y_col ["lon"; "lat"; "name"]
      <-> 3%nat = 1%nat).
Proof.
  apply (default_columns_exist ["lon"; "lat"; "name"]).
  discriminate.
Defined.

(** ** Index labels *)

Lemma frames_permutation (df : DataFrame) (x_col y_col : nat) :
  Permutation (map origin (df_valid df x_col y_col)
               ++ df_zero df x_col y_col ++ df_invalid df x_col y_col)%list
              df.
Proof.
  rewrite origin_df_valid, df_zero_filter, df_invalid_filter.
  apply three_filters_permutation.
  intros r _. apply one_of_three.
Qed.

Lemma Subsequence_map {A B : Type} (f : A -> B) (l m : list A) :
  Subsequence l m -> Subsequence (map f l) (map f m).
Proof.
  induction 1; simpl; now constructor.
Qed.

Lemma Subsequence_Forall {A : Type} (P : A -> Prop) (l m : list A) :
  Subsequence l m -> Forall P m -> Forall P l.
Proof.
  induction 1 as [|a l m _ IH|a l m _ IH]; intros F.
  - constructor.
  - inversion F; subst. now apply IH.
  - inversion F; subst. constructor; [assumption|now apply IH].
Qed.

Lemma Subsequence_sorted {A : Type} (R : A -> A -> Prop) (l m : list A) :
  Subsequence l m -> StronglySorted R m -> StronglySorted R l.
Proof.
  induction 1 as [|a l m S IH|a l m S IH]; intros H.
  - constructor.
  - inversion H; subst. now apply IH.
  - inversion H; subst. constructor; [now apply IH|].
    now apply (Subsequence_Forall _ _ _ S).
Qed.

Lemma sorted_NoDup (l : list nat) : StronglySorted lt l -> NoDup l.
Proof.
  induction 1 as [|a l _ IH F]; constructor; [|exact IH].
  intros H. rewrite Forall_forall in F. specialize (F a H). lia.
Qed.

(** X8.  For a table whose row labels go up strictly (as the labels 0 to
    n-1 that a table gets by default do): in each of the three frames the
    labels go up strictly, no label is in two frames or twice in one, and
    the labels of the three frames together are exactly those of the
    table. *)
Theorem labels_ascending_and_unique (df : DataFrame) (x_col y_col : nat) :
  StronglySorted lt (map fst df) ->
  StronglySorted lt (map fst (map origin (df_valid df x_col y_col)))
  /\ StronglySorted lt (map fst (df_zero df x_col y_col))
  /\ StronglySorted lt (map fst (df_invalid df x_col y_col))
  /\ NoDup (map fst (map origin (df_valid df x_col y_col)
                     ++ df_zero df x_col y_col
                     ++ df_invalid df x_col y_col)%list)
  /\ forall label,
       In label
          (map fst (map origin (df_valid df x_col y_col)
                    ++ df_zero df x_col y_col
                    ++ df_invalid df x_col y_col)%list)
       <-> In label (map fst df).
Proof.
  intros S.
  assert (P : Permutation
                (map fst (map origin (df_valid df x_col y_col)
                          ++ df_zero df x_col y_col
                          ++ df_invalid df x_col y_col)%list)
                (map fst df)).
  { apply Permutation_map. apply frames_permutation. }
  split.
  { apply (Subsequence_sorted _ _ (map fst df)); [|exact S].
    apply Subsequence_map. rewrite origin_df_valid.
    apply filter_subsequence. }
  split.
  { apply (Subsequence_sorted _ _ (map fst df)); [|exact S].
    apply Subsequence_map. rewrite df_zero_filter.
    apply filter_subsequence. }
  split.
  { apply (Subsequence_sorted _ _ (map fst df)); [|exact S].
    apply Subsequence_map. rewrite df_invalid_filter.
    apply filter_subsequence. }
  split.
  { apply (Permutation_NoDup (Permutation_sym P)). now apply sorted_NoDup. }
  intros label. split.
  - apply (Permutation_in _ P).
  - apply (Permutation_in _ (Permutation_sym P)).
Qed.

Lemma labels_ascending_and_unique_witness :
  StronglySorted lt (map fst (map origin (df_valid Scenario.df 0 1)))
  /\ StronglySorted lt (map fst (df_zero Scenario.df 0 1))
  /\ StronglySorted lt (map fst (df_invalid Scenario.df 0 1))
  /\ NoDup (map fst (map origin (df_valid Scenario.df 0 1)
                     ++ df_zero Scenario.df 0 1
                     ++ df_invalid Scenario.df 0 1)%list)
  /\ forall label,
       In label
          (map fst (map origin (df_valid Scenario.df 0 1)
                    ++ df_zero Scenario.df 0 1
                    ++ df_invalid Scenario.df 0 1)%list)
       <-> In label (map fst Scenario.df).
Proof.
  apply (labels_ascending_and_unique Scenario.df 0 1).
  vm_compute. repeat constructor.
Defined.

(** ** The same column chosen for both axes *)

(** X9.  When one column is chosen for both axes (as it is by default for a
    table of a single column), a record is valid exactly when its cleaned
    value is a finite number from -90 to 90 and is not zero: the narrower of
    the two ranges decides. *)
Theorem same_column_valid (df : DataFrame) (col : nat) (r : nat * Row) :
  In r df ->
  (assigned df col col r Valid
   <-> Float64.is_finite (coord (cell col r)) = true
       /\ (-90 <= Float64.to_Q (coord (cell col r)) <= 90)%Q
       /\ Float64.eqb (coord (cell col r)) (Float64.of_Z 0) = false).
Proof.
  intros Hr.
  assert (W := coord_well_formed (cell col r)).
  rewrite assigned_Valid. unfold row_is_valid.
  set (v := coord (cell col r)) in *.
  assert (B90 := between_interval (-90) 90 v).
  assert (B180 := between_interval (-180) 180 v).
  simpl In in B90, B180.
  split.
  - intros [_ V].
    destruct (is_valid_parts v v V) as [Hi Hz].
    unfold in_range in Hi. apply andb_true_iff in Hi as [_ Hi].
    apply B90 in Hi; [|auto 6 | auto 6 | exact W].
    destruct Hi as [F I]. split; [exact F|]. split; [exact I|].
    unfold is_zero in Hz. now destruct (Float64.eqb v (Float64.of_Z 0)).
  - intros (F & [Lo Hi] & Z). split; [exact Hr|].
    assert (R : in_range v v = true).
    { unfold in_range. apply andb_true_iff. split.
      - apply B180; [auto 6 | auto 6 | exact W |].
        split; [exact F|]. split.
        + apply Qle_trans with (2 := Lo). discriminate.
        + apply Qle_trans with (1 := Hi). discriminate.
      - apply B90; [auto 6 | auto 6 | exact W |].
        split; [exact F|]. now split. }
    destruct (in_range_not_nan v v R) as [N _].
    unfold is_valid, is_zero. now rewrite R, Z, N.
Qed.

Lemma same_column_valid_witness :
  assigned (range_index [[Some "45,5"]; [Some "120"]]) 0 0
           (0, [Some "45,5"]) Valid
  <-> Float64.is_finite (coord (cell 0 (0, [Some "45,5"]))) = true
      /\ (-90 <= Float64.to_Q (coord (cell 0 (0%nat, [Some "45,5"]))) <= 90)%Q
      /\ Float64.eqb (coord (cell 0 (0, [Some "45,5"]))) (Float64.of_Z 0)
         = false.
Proof.
  apply (same_column_valid (range_index [[Some "45,5"]; [Some "120"]]) 0
                           (0, [Some "45,5"])).
  left. reflexivity.
Defined.

(** ** Texts that give the same coordinate *)

Lemma isspace_mark (c : ascii) :
  isspace (if Ascii.eqb c "," then "."%char else c) = isspace c.
Proof.
  destruct (Ascii.eqb_spec c ","%char) as [->|_]; reflexivity.
Qed.

Lemma lstrip_replace (s : string) :
  lstrip (replace "," "." s) = replace "," "." (lstrip s).
Proof.
  induction s as [|c s IH]; simpl; [reflexivity|].
  rewrite isspace_mark.
  destruct (isspace c); [exact IH|reflexivity].
Qed.

Lemma rstrip_replace (s : string) :
  rstrip (replace "," "." s) = replace "," "." (rstrip s).
Proof.
  induction s as [|c s IH]; simpl; [reflexivity|].
  rewrite IH, isspace_mark.
  destruct (rstrip s) as [|a u]; simpl.
  - destruct (isspace c); reflexivity.
  - reflexivity.
Qed.

Lemma replace_idem (s : string) :
  replace "," "." (replace "," "." s) = replace "," "." s.
Proof.
  induction s as [|c s IH]; simpl; [reflexivity|].
  rewrite IH.
  destruct (Ascii.eqb_spec c ","%char) as [->|N]; [reflexivity|].
  destruct (Ascii.eqb_spec c ","%char); [contradiction|reflexivity].
Qed.

(** X10.  A comma and a point as decimal mark give the same coordinate:
    turning the commas of a text into points beforehand changes nothing. *)
Theorem comma_same_as_point (s : string) :
  clean_coord (Some (replace "," "." s)) = clean_coord (Some s).
Proof.
  unfold clean_coord, strip.
  now rewrite lstrip_replace, rstrip_replace, replace_idem.
Qed.

Lemma lstrip_all_space (r : string) : all_space r = true -> lstrip r = "".
Proof.
  induction r as [|c r IH]; simpl; [reflexivity|].
  intros H. apply andb_true_iff in H as [C R]. rewrite C. now apply IH.
Qed.

Lemma rstrip_all_space (r : string) : all_space r = true -> rstrip r = "".
Proof.
  induction r as [|c r IH]; simpl; [reflexivity|].
  intros H. apply andb_true_iff in H as [C R].
  now rewrite (IH R), C.
Qed.

Lemma lstrip_app_space (l t : string) :
  all_space l = true -> lstrip (l ++ t) = lstrip t.
Proof.
  induction l as [|c l IH]; simpl; [reflexivity|].
  intros H. apply andb_true_iff in H as [C R]. rewrite C. now apply IH.
Qed.

Lemma rstrip_app_space (t r : string) :
  all_space r = true -> rstrip (t ++ r) = rstrip t.
Proof.
  intros R. induction t as [|c t IH]; simpl.
  - now apply rstrip_all_space.
  - now rewrite IH.
Qed.

Lemma lstrip_app (s r : string) :
  lstrip (s ++ r) = if all_space s then lstrip r else lstrip s ++ r.
Proof.
  induction s as [|c s IH]; simpl; [reflexivity|].
  destruct (isspace c); simpl; [exact IH|reflexivity].
Qed.

Lemma strip_padding (l s r : string) :
  all_space l = true -> all_space r = true ->
  strip (l ++ s ++ r) = strip s.
Proof.
  intros L R. unfold strip.
  rewrite (lstrip_app_space l _ L), lstrip_app.
  destruct (all_space s) eqn:S.
  - now rewrite (lstrip_all_space r R), (lstrip_all_space s S).
  - now apply rstrip_app_space.
Qed.

(** X11.  White space around a text is ignored: a text padded on both sides
    gives the same coordinate as the text alone. *)
Theorem padding_is_ignored (l s r : string) :
  all_space l = true -> all_space r = true ->
  clean_coord (Some (l ++ s ++ r)) = clean_coord (Some s).
Proof.
  intros L R. unfold clean_coord.
  now rewrite (strip_padding l s r L R).
Qed.

Lemma padding_is_ignored_witness :
  clean_coord (Some (" " ++ "45,123" ++ "  ")) = clean_coord (Some "45,123").
Proof.
  apply (padding_is_ignored " " "45,123" "  "); reflexivity.
Defined.

(** ** Texts with more than one decimal mark *)

Lemma occurrences_app (c : ascii) (l m : list ascii) :
  occurrences c (l ++ m) = (occurrences c l + occurrences c m)%nat.
Proof.
  induction l as [|a l IH]; simpl; [reflexivity|]. rewrite IH. lia.
Qed.

Lemma list_ascii_of_string_app (a b : string) :
  list_ascii_of_string (a ++ b)
  = (list_ascii_of_string a ++ list_ascii_of_string b)%list.
Proof.
  induction a as [|x a IH]; simpl; [reflexivity|]. now rewrite IH.
Qed.

Lemma count_char_app (c : ascii) (a b : string) :
  count_char c (a ++ b) = (count_char c a + count_char c b)%nat.
Proof.
  unfold count_char. rewrite list_ascii_of_string_app. apply occurrences_app.
Qed.

Lemma count_char_space (c : ascii) (l : string) :
  isspace c = false -> all_space l = true -> count_char c l = 0%nat.
Proof.
  intros C. unfold count_char.
  induction l as [|a l IH]; simpl; [reflexivity|].
  intros H. apply andb_true_iff in H as [A R].
  destruct (Ascii.eqb_spec a c) as [->|_]; [congruence|].
  now apply IH.
Qed.

Lemma count_char_strip (c : ascii) (s : string) :
  isspace c = false -> count_char c (strip s) = count_char c s.
Proof.
  intros C.
  destruct (strip_spec s) as (l & r & E & L & R & _).
  rewrite E at 2.
  rewrite !count_char_app.
  rewrite (count_char_space c l C L), (count_char_space c r C R). lia.
Qed.

Lemma count_char_replace (t : string) :
  count_char "." (replace "," "." t)
  = (count_char "," t + count_char "." t)%nat.
Proof.
  unfold count_char.
  induction t as [|a t IH]; simpl; [reflexivity|].
  rewrite IH.
  destruct (Ascii.eqb_spec a ","%char) as [->|N]; simpl; [lia|].
  destruct (Ascii.eqb a "."); lia.
Qed.

Lemma digit_not_dot (c : ascii) :
  PyFloat.is_digit c = true -> Ascii.eqb c "." = false.
Proof.
  destruct (Ascii.eqb_spec c "."%char) as [->|_]; [discriminate|reflexivity].
Qed.

Lemma digits_no_dot (ds : list ascii) :
  Forall (fun c => PyFloat.is_digit c = true) ds -> occurrences "." ds = 0%nat.
Proof.
  induction 1 as [|c ds D _ IH]; simpl; [reflexivity|].
  now rewrite (digit_not_dot c D), IH.
Qed.

Lemma span_digits_split (s : list ascii) :
  s = (fst (PyFloat.span_digits s) ++ snd (PyFloat.span_digits s))%list.
Proof.
  induction s as [|c s IH]; simpl; [reflexivity|].
  destruct (PyFloat.is_digit c); [|reflexivity].
  destruct (PyFloat.span_digits s) as [d r]. simpl in *. now f_equal.
Qed.

Lemma take_sign_count (cs : list ascii) :
  occurrences "." (snd (PyFloat.take_sign cs)) = occurrences "." cs.
Proof.
  destruct cs as [|a cs]; [reflexivity|].
  destruct a as [[] [] [] [] [] [] [] []]; reflexivity.
Qed.

Lemma lower_dot (c : ascii) :
  Ascii.eqb (PyFloat.lower c) "." = Ascii.eqb c ".".
Proof.
  destruct c as [[] [] [] [] [] [] [] []]; reflexivity.
Qed.

Lemma exponent_no_dot (r : list ascii) (ex : Z) :
  PyFloat.exponent r = Some ex -> occurrences "." r = 0%nat.
Proof.
  unfold PyFloat.exponent.
  destruct r as [|c r]; [reflexivity|].
  destruct (Ascii.eqb (PyFloat.lower c) "e") eqn:E; [|discriminate].
  assert (C : Ascii.eqb c "." = false).
  { rewrite <- lower_dot. apply Ascii.eqb_eq in E. now rewrite E. }
  assert (T := take_sign_count r).
  destruct (PyFloat.take_sign r) as [neg r1]. cbn [snd] in T.
  assert (S := span_digits_split r1).
  assert (D := span_digits_digits r1).
  destruct (PyFloat.span_digits r1) as [ds r2]. cbn [fst snd] in S, D.
  destruct ds as [|d ds]; [discriminate|].
  destruct r2; [|discriminate].
  intros _. simpl. rewrite C, <- T, S, app_nil_r.
  now apply digits_no_dot.
Qed.

Lemma number_one_dot (neg : bool) (r : list ascii) (f : float) :
  PyFloat.number neg r = Some f -> (occurrences "." r <= 1)%nat.
Proof.
  unfold PyFloat.number.
  assert (S := span_digits_split r).
  assert (D := span_digits_digits r).
  destruct (PyFloat.span_digits r) as [ip r1]. cbn [fst snd] in S, D.
  assert (K : forall fp r2,
             match r1 with
             | "."%char :: r' => PyFloat.span_digits r'
             | _ => ([], r1)
             end = (fp, r2) ->
             (occurrences "." r1 <= 1 + occurrences "." r2)%nat).
  { intros fp r2 E.
    destruct r1 as [|c r']; [injection E as <- <-; simpl; lia|].
    destruct (Ascii.eqb_spec c "."%char) as [->|N].
    - assert (S' := span_digits_split r').
      assert (D' := span_digits_digits r').
      rewrite E in S', D'. cbn [fst snd] in S', D'.
      simpl. rewrite S', occurrences_app, (digits_no_dot fp D'). lia.
    - assert (E' : ([] : list ascii, c :: r') = (fp, r2)).
      { destruct c as [[] [] [] [] [] [] [] []]; try exact E.
        now contradiction N. }
      injection E' as <- <-. lia. }
  destruct (match r1 with
            | "."%char :: r' => PyFloat.span_digits r'
            | _ => ([], r1)
            end) as [fp r2].
  specialize (K fp r2 eq_refl).
  destruct (ip ++ fp)%list; [discriminate|].
  destruct (PyFloat.exponent r2) as [ex|] eqn:X; [|discriminate].
  intros _.
  rewrite S, occurrences_app, (digits_no_dot ip D).
  rewrite (exponent_no_dot r2 ex X) in K. lia.
Qed.

Lemma occurrences_lower (r : list ascii) :
  occurrences "." (map PyFloat.lower r) = occurrences "." r.
Proof.
  induction r as [|c r IH]; simpl; [reflexivity|].
  now rewrite lower_dot, IH.
Qed.

Lemma inf_or_nan_no_dot (neg : bool) (r : list ascii) (f : float) :
  PyFloat.inf_or_nan neg r = Some f -> occurrences "." r = 0%nat.
Proof.
  unfold PyFloat.inf_or_nan. intros H.
  rewrite <- occurrences_lower.
  rewrite <- (list_ascii_of_string_of_list_ascii (map PyFloat.lower r)).
  destruct (String.eqb_spec (string_of_list_ascii (map PyFloat.lower r)) "inf")
    as [->|_]; [reflexivity|].
  destruct (String.eqb_spec (string_of_list_ascii (map PyFloat.lower r))
                            "infinity") as [->|_]; [reflexivity|].
  destruct (String.eqb_spec (string_of_list_ascii (map PyFloat.lower r)) "nan")
    as [->|_]; [reflexivity|].
  discriminate.
Qed.

Lemma drop_underscores_count (s : list ascii) :
  forall prev cs,
    PyFloat.drop_underscores prev s = Some cs ->
    occurrences "." cs = occurrences "." s.
Proof.
  induction s as [|c s IH]; intros prev cs; simpl.
  - destruct prev as [p|].
    + destruct (Ascii.eqb_spec p "_"%char) as [->|N]; [discriminate|].
      intros H.
      assert (cs = []) as ->; [|reflexivity].
      destruct p as [[] [] [] [] [] [] [] []]; try (now injection H as <-).
      now contradiction N.
    + intros H. now injection H as <-.
  - destruct (Ascii.eqb_spec c "_"%char) as [->|N].
    + destruct prev as [p|]; [|discriminate].
      destruct (PyFloat.is_digit p); [|discriminate].
      intros H. simpl. now apply (IH _ _ H).
    + match goal with
      | |- (if ?b then _ else _) = _ -> _ => destruct b; [|discriminate]
      end.
      destruct (PyFloat.drop_underscores (Some c) s) as [cs'|] eqn:E;
        [|discriminate].
      intros H. injection H as <-. simpl. now rewrite (IH _ _ E).
Qed.

Lemma parse_one_dot (t : string) (f : float) :
  PyFloat.parse t = Some f -> (count_char "." t <= 1)%nat.
Proof.
  unfold PyFloat.parse. intros H.
  rewrite <- (count_char_strip "." t eq_refl). unfold count_char.
  destruct (PyFloat.drop_underscores None (list_ascii_of_string (strip t)))
    as [cs|] eqn:U; [|discriminate].
  rewrite <- (drop_underscores_count _ _ _ U).
  rewrite <- take_sign_count.
  destruct (PyFloat.take_sign cs) as [neg r]. cbn [snd].
  destruct (PyFloat.number neg r) as [g|] eqn:N.
  - exact (number_one_dot _ _ _ N).
  - rewrite (inf_or_nan_no_dot _ _ _ H). lia.
Qed.

(** X12.  A text with two decimal marks or more, commas and points counted
    together (as in "1,234.5"), never gives a number: its coordinate is
    NaN. *)
Theorem two_marks_give_nan (s : string) :
  (2 <= count_char "," s + count_char "." s)%nat ->
  clean_coord (Some s) = inr Float64.nan.
Proof.
  intros H. unfold clean_coord, py_float.
  destruct (PyFloat.parse (replace "," "." (strip s))) as [f|] eqn:P;
    [|reflexivity].
  apply parse_one_dot in P.
  rewrite count_char_replace in P.
  rewrite !count_char_strip in P by reflexivity. lia.
Qed.

Lemma two_marks_give_nan_witness :
  clean_coord (Some "1,234.5") = inr Float64.nan.
Proof.
  apply (two_marks_give_nan "1,234.5").
  vm_compute. lia.
Defined.

(** X13.  A text of white space only, the empty text included, gives NaN. *)
Theorem blank_text_gives_nan (s : string) :
  all_space s = true -> clean_coord (Some s) = inr Float64.nan.
Proof.
  intros H. unfold clean_coord, strip.
  now rewrite (lstrip_all_space s H).
Qed.

Lemma blank_text_gives_nan_witness :
  clean_coord (Some "   ") = inr Float64.nan.
Proof.
  apply (blank_text_gives_nan "   "). reflexivity.
Defined.
